(** * SNMP client engine (package snmp): values, ordering, PDUs, validation

    Shallow embedding of [snmp.go].  Go [int] and [int32] values are
    modelled as [Z], byte slices as [list Byte.byte], slices as lists with
    stdpp's partial lookup (an out-of-range index is a run-time panic in Go,
    which the embedding makes explicit), and the [errorText] map as a
    [gmap]. *)

From Stdlib Require Import ZArith String Ascii List Lia DecimalString.
From Stdlib.Strings Require Import Byte.
From Stdlib Require DecimalPos DecimalZ.
From stdpp Require Import base option list gmap strings.

Open Scope Z_scope.

(** ** asn1.RawValue and the reserved binding values *)

Record RawValue : Type := mkRawValue {
  Class      : Z;
  Tag        : Z;
  IsCompound : bool;
  Bytes      : list Byte.byte;
  FullBytes  : list Byte.byte
}.

(** A composite literal that names only [Class] and [Tag] leaves the other
    fields at their zero values. *)
Definition rawLit (c t : Z) : RawValue := mkRawValue c t false [] [].

Definition null           : RawValue := rawLit 0 5.
Definition noSuchObject   : RawValue := rawLit 2 0.
Definition noSuchInstance : RawValue := rawLit 2 1.
Definition endOfMibView   : RawValue := rawLit 2 2.

(** ** Slice stores

    [s[i] = x] on a Go slice panics when [i] is out of range; [None] stands
    for that panic. *)
Definition store {A} (l : list A) (i : nat) (x : A) : option (list A) :=
  if decide (i < length l)%nat then Some (<[i := x]> l) else None.

(** ** convertClass *)

Definition convertClass (v : RawValue) : option RawValue :=
  if negb (Class v =? 1) then Some v
  else if (Tag v =? 0) || (Tag v =? 4) then
    fb ← store (FullBytes v) 0 x04;
    Some (mkRawValue 0 4 (IsCompound v) (Bytes v) fb)
  else if (Tag v =? 1) || (Tag v =? 2) || (Tag v =? 3) || (Tag v =? 6) then
    fb ← store (FullBytes v) 0 x02;
    Some (mkRawValue 0 2 (IsCompound v) (Bytes v) fb)
  else Some v.

(** ** Bindings and their order in the MIB tree *)

Record Binding : Type := mkBinding {
  Name  : list Z;
  Value : RawValue
}.

(** [l.[i]] reads [l[i]]; every loop below keeps [i] within both slices. *)
Definition idx (l : list Z) (i : nat) : Z := default 0 (l !! i).

(** The three loops of [less] share one body: they run [i] over [k] further
    positions and fall through to [dflt] when no component decides. *)
Fixpoint less_loop (a b : list Z) (i k : nat) (dflt : bool) : bool :=
  match k with
  | O => dflt
  | S k' =>
      if idx a i <? idx b i then true
      else if idx a i =? idx b i then less_loop a b (S i) k' dflt
      else false
  end.

(** The last case of the outer [switch] is [len(a.Name) > len(b.Name)]; the
    three cases cover all integers, so the trailing panic is never reached. *)
Definition less (a b : Binding) : bool :=
  let la := length (Name a) in
  let lb := length (Name b) in
  if (la <? lb)%nat then less_loop (Name a) (Name b) 0 la true
  else if (la =? lb)%nat then less_loop (Name a) (Name b) 0 la false
  else less_loop (Name a) (Name b) 0 lb false.

(** ** Requests, responses and the PDUs built by RoundTrip *)

Record Request : Type := mkRequest {
  ReqID          : Z;
  Type_          : string;
  ReqBindings    : list Binding;
  NonRepeaters   : Z;
  MaxRepetitions : Z
}.

Record Response : Type := mkResponse {
  RespID       : Z;
  ErrorStatus  : Z;
  ErrorIndex   : Z;
  RespBindings : list Binding
}.

(** The anonymous [Data] structs of the three request envelopes. *)
Record StatusData : Type := mkStatusData {
  sd_RequestID   : Z;
  sd_ErrorStatus : Z;
  sd_ErrorIndex  : Z;
  sd_Bindings    : list Binding
}.

Record BulkData : Type := mkBulkData {
  bd_RequestID      : Z;
  bd_NonRepeaters   : Z;
  bd_MaxRepetitions : Z;
  bd_Bindings       : list Binding
}.

(** The [Data] field together with its [application,tag:n] annotation. *)
Inductive PDU : Type :=
| StatusPDU (tag : Z) (d : StatusData)
| BulkPDU (tag : Z) (d : BulkData).

Record Envelope : Type := mkEnvelope {
  Version   : Z;
  Community : string;
  Data      : PDU
}.

(** The first loop of RoundTrip: every request binding gets the value
    [null]. *)
Definition clearValues (bs : list Binding) : list Binding :=
  map (fun b => mkBinding (Name b) null) bs.

(** The struct that RoundTrip hands to [asn1.Marshal]; [None] is the panic
    on an unsupported request type. *)
Definition buildEnvelope (community : string) (req : Request) : option Envelope :=
  let bs := clearValues (ReqBindings req) in
  if String.eqb (Type_ req) "Get" then
    Some (mkEnvelope 1 community (StatusPDU 0 (mkStatusData (ReqID req) 0 0 bs)))
  else if String.eqb (Type_ req) "GetNext" then
    Some (mkEnvelope 1 community (StatusPDU 1 (mkStatusData (ReqID req) 0 0 bs)))
  else if String.eqb (Type_ req) "GetBulk" then
    Some (mkEnvelope 1 community
            (BulkPDU 5 (mkBulkData (ReqID req) 0 (MaxRepetitions req) bs)))
  else None.

(** What a decoder of the bulk layout reads back from the envelope. *)
Definition bulkFields (e : Envelope) : option (Z * Z * Z) :=
  match Data e with
  | BulkPDU _ d => Some (bd_RequestID d, bd_NonRepeaters d, bd_MaxRepetitions d)
  | StatusPDU _ _ => None
  end.

(** ** Error codes *)

Definition errorText : gmap Z string :=
  list_to_map
    [ (0,  "no error"); (1,  "too big"); (2,  "no such name"); (3,  "bad value");
      (4,  "read only"); (5,  "gen err"); (6,  "no access"); (7,  "wrong type");
      (8,  "wrong length"); (9,  "wrong encoding"); (10, "wrong value");
      (11, "no creation"); (12, "inconsistent value");
      (13, "resource unavailable"); (14, "commit failed"); (15, "undo failed");
      (16, "authorization error"); (17, "not writable");
      (18, "inconsistent name") ].

(** [%d] of an integer. *)
Definition fmt_d (e : Z) : string := NilZero.string_of_int (Z.to_int e).

(** A missing key of a Go map reads as the zero value, the empty string. *)
Definition errorStatus_String (e : Z) : string :=
  let s := default "" (errorText !! e) in
  if String.eqb s "" then "code " +:+ fmt_d e else s.

(** ** The response validator *)

(** The errors built by [check], one constructor per [fmt.Errorf] call; the
    arguments are the values the format string prints. *)
Inductive error : Type :=
| IdMismatch
| ServerError (text : string)
| BindingContext (b : Binding) (e : error)
| NoBindings
| MissingBindings
| ExtraneousBindings
| NoSuchObjectAt (n : list Z)
| NoSuchInstanceAt (n : list Z)
| EndOfMibViewAt (n : list Z)
| UnexpectedNullAt (n : list Z)
| MissingPrefixAt (n : list Z)
| InvalidResponse (e : error).

(** A call either returns its [error] result ([None] is [nil]) or panics. *)
Inductive outcome : Type :=
| Returns (err : option error)
| Panics.

Definition hasPrefix (instance prefix : list Z) : bool :=
  if (length instance <? length prefix)%nat then false
  else forallb (fun i => idx instance i =? idx prefix i) (seq 0 (length prefix)).

(** The closure [eq] of [check]. *)
Definition eqv (a b : RawValue) : bool :=
  (Class a =? Class b) && (Tag a =? Tag b).

(** One iteration of the loop over the response bindings. *)
Definition checkBinding (b : Binding) : option error :=
  let v := Value b in
  if eqv v noSuchObject then Some (NoSuchObjectAt (Name b))
  else if eqv v noSuchInstance then Some (NoSuchInstanceAt (Name b))
  else if eqv v endOfMibView then Some (EndOfMibViewAt (Name b))
  else if eqv v null then Some (UnexpectedNullAt (Name b))
  else if negb (hasPrefix (Name b) [1; 3]) then Some (MissingPrefixAt (Name b))
  else None.

Fixpoint checkBindings (bs : list Binding) : option error :=
  match bs with
  | [] => None
  | b :: bs' =>
      match checkBinding b with
      | Some e => Some e
      | None => checkBindings bs'
      end
  end.

(** The body of [check], before the deferred function runs. *)
Definition check_body (resp : Response) (req : Request) : outcome :=
  if negb (RespID resp =? ReqID req) then Returns (Some IdMismatch)
  else if negb (ErrorStatus resp =? 0) then
    let e := ErrorStatus resp in
    let i := ErrorIndex resp in
    let err := ServerError (errorStatus_String e) in
    if (0 <=? i) && (i <? Z.of_nat (length (RespBindings resp))) then
      match ReqBindings req !! Z.to_nat i with
      | Some b => Returns (Some (BindingContext b err))
      | None => Panics
      end
    else Returns (Some err)
  else
    let n := length (RespBindings resp) in
    if (n =? 0)%nat then Returns (Some NoBindings)
    else if (n <? length (ReqBindings req))%nat then Returns (Some MissingBindings)
    else if (length (ReqBindings req) <? n)%nat
            && negb (String.eqb (Type_ req) "GetBulk")
    then Returns (Some ExtraneousBindings)
    else Returns (checkBindings (RespBindings resp)).

(** The deferred function rewrites a non-nil result; a panic passes through
    it untouched, since the named result is still nil. *)
Definition check (resp : Response) (req : Request) : outcome :=
  match check_body resp req with
  | Returns (Some e) => Returns (Some (InvalidResponse e))
  | Returns None => Returns None
  | Panics => Panics
  end.

(** ** Printable strings *)

Definition byteval (c : Byte.byte) : Z := Z.of_N (Byte.to_N c).

(** The loop of [toString] over [x[1:]]; [None] is the early
    [return "", false]. *)
Fixpoint copyPrintable (cs : list Byte.byte) : option (list Byte.byte) :=
  match cs with
  | [] => Some []
  | c :: cs' =>
      if (byteval c <? 32) || (126 <? byteval c) then None
      else buf ← copyPrintable cs'; Some (c :: buf)
  end.

Definition toString (x : list Byte.byte) : string * bool :=
  match x with
  | [] => ("", false)
  | x0 :: rest =>
      if negb (byteval x0 =? Z.of_nat (length rest)) then ("", false)
      else match copyPrintable rest with
           | None => ("", false)
           | Some buf => (string_of_list_byte buf, true)
           end
  end.

(** [toStringInt]: the same heuristic on a slice of ints.  [byte(c)] keeps
    the low eight bits of [c]. *)
Definition toByte (c : Z) : Byte.byte :=
  default x00 (Byte.of_N (Z.to_N (c mod 256))).

Fixpoint copyPrintableInt (cs : list Z) : option (list Byte.byte) :=
  match cs with
  | [] => Some []
  | c :: cs' =>
      if (c <? 32) || (126 <? c) then None
      else buf ← copyPrintableInt cs'; Some (toByte c :: buf)
  end.

Definition toStringInt (x : list Z) : string * bool :=
  match x with
  | [] => ("", false)
  | x0 :: rest =>
      if negb (x0 =? Z.of_nat (length rest)) then ("", false)
      else match copyPrintableInt rest with
           | None => ("", false)
           | Some buf => (string_of_list_byte buf, true)
           end
  end.

(** ** convertType

    The dynamic values of the [interface{}] argument: a byte slice, a
    string, or a value of any other type, which the type switch sends to
    its [default] case. *)
Inductive dyn (O : Type) : Type :=
| DBytes (b : list Byte.byte)
| DString (s : string)
| DOther (o : O).

Arguments DBytes {O} b.
Arguments DString {O} s.
Arguments DOther {O} o.

Definition convertType {O : Type} (v : dyn O) : dyn O :=
  match v with
  | DBytes b =>
      let '(s, ok) := toString b in
      if negb ok then DBytes b else DString s
  | _ => v
  end.

(** ** Slice accesses with their bounds checks

    [less] and [hasPrefix] once more, with every [s[i]] as the partial
    lookup: [None] is the index-out-of-range panic. *)
Fixpoint less_loop_indexed (a b : list Z) (i k : nat) (dflt : bool)
  : option bool :=
  match k with
  | O => Some dflt
  | S k' =>
      x ← a !! i; y ← b !! i;
      if x <? y then Some true
      else if x =? y then less_loop_indexed a b (S i) k' dflt
      else Some false
  end.

Definition less_indexed (a b : Binding) : option bool :=
  let la := length (Name a) in
  let lb := length (Name b) in
  if (la <? lb)%nat then less_loop_indexed (Name a) (Name b) 0 la true
  else if (la =? lb)%nat then less_loop_indexed (Name a) (Name b) 0 la false
  else less_loop_indexed (Name a) (Name b) 0 lb false.

Fixpoint hasPrefix_loop_indexed (instance prefix : list Z) (ixs : list nat)
  : option bool :=
  match ixs with
  | [] => Some true
  | i :: ixs' =>
      x ← instance !! i; y ← prefix !! i;
      if negb (x =? y) then Some false
      else hasPrefix_loop_indexed instance prefix ixs'
  end.

Definition hasPrefix_indexed (instance prefix : list Z) : option bool :=
  if (length instance <? length prefix)%nat then Some false
  else hasPrefix_loop_indexed instance prefix (seq 0 (length prefix)).

(** ** Binding.unmarshal

    [asn1.Unmarshal] belongs to the standard library and is taken as given:
    it reads the encoded bytes, writes through the pointer [v] (the store
    [T] behind it) and returns nil or an error, which is a
    [StructuralError] or some other error. *)
Inductive asn1_error : Type :=
| StructuralError (msg : string)
| OtherError (msg : string).

(** The errors of [unmarshal]: the type mismatch, with the class and the
    tag it prints, or the decoder's error as it came. *)
Inductive unmarshal_error : Type :=
| TypeMismatch (class tag : Z) (err : asn1_error)
| Propagated (err : asn1_error).

Section Unmarshal.

Variable T : Type.
Variable asn1_Unmarshal : list Byte.byte -> T -> T * option asn1_error.

(** The binding is rewritten in place by [convertClass] before the decoder
    runs; [None] is the panic of [convertClass].  The final
    [v = convertType(v)] assigns to the parameter only and is not seen by
    the caller. *)
Definition unmarshal (b : Binding) (v : T)
  : option (Binding * T * option unmarshal_error) :=
  val ← convertClass (Value b);
  let b' := mkBinding (Name b) val in
  let '(v', err) := asn1_Unmarshal (FullBytes val) v in
  Some (b', v',
        match err with
        | Some (StructuralError m) =>
            Some (TypeMismatch (Class val) (Tag val) (StructuralError m))
        | Some e => Some (Propagated e)
        | None => None
        end).

End Unmarshal.

Arguments unmarshal {T} asn1_Unmarshal b v.

(** * Vocabulary of the properties *)

(** The (class, tag) pairs that [convertClass] rewrites. *)
Definition toOctetString (v : RawValue) : Prop :=
  Class v = 1 /\ (Tag v = 0 \/ Tag v = 4).

Definition toInteger (v : RawValue) : Prop :=
  Class v = 1 /\ (Tag v = 1 \/ Tag v = 2 \/ Tag v = 3 \/ Tag v = 6).

(** The loop, read off the two slices from position [i] on. *)
Fixpoint scan (a b : list Z) (k : nat) (dflt : bool) {struct k} : bool :=
  match k, a, b with
  | S k', x :: a', y :: b' =>
      if x <? y then true
      else if x =? y then scan a' b' k' dflt
      else false
  | _, _, _ => dflt
  end.

(** Lexicographic order on identifiers, a proper prefix first. *)
Fixpoint lexLess (a b : list Z) : bool :=
  match a, b with
  | [], [] => false
  | [], _ :: _ => true
  | _ :: _, [] => false
  | x :: a', y :: b' =>
      if x <? y then true
      else if x =? y then lexLess a' b'
      else false
  end.

(** [a] is a strict prefix of [b], component by component. *)
Definition strictPrefix (a b : list Z) : Prop :=
  (length a < length b)%nat /\
  forall i, (i < length a)%nat -> a !! i = b !! i.

(** A byte of the printable ASCII range [0x20, 0x7e]. *)
Definition printable (c : Byte.byte) : Prop := 32 <= byteval c <= 126.

(** The inputs on which the heuristic answers: a length byte followed by
    exactly that many bytes, all of them printable. *)
Definition wellFormed (x : list Byte.byte) : Prop :=
  exists x0 rest, x = x0 :: rest /\
    byteval x0 = Z.of_nat (length rest) /\ Forall printable rest.

(** A text with its length byte in front; there is none past 255. *)
Definition lengthPrefixed (s : string) : option (list Byte.byte) :=
  l ← Byte.of_nat (String.length s);
  Some (l :: list_byte_of_string s).

(** The texts of RFC 3416, by code. *)
Definition rfc3416 : list string :=
  [ "no error"; "too big"; "no such name"; "bad value"; "read only";
    "gen err"; "no access"; "wrong type"; "wrong length"; "wrong encoding";
    "wrong value"; "no creation"; "inconsistent value";
    "resource unavailable"; "commit failed"; "undo failed";
    "authorization error"; "not writable"; "inconsistent name" ].

(** The deferred wrapper applied to the result of the binding loop. *)
Definition wrapped (r : option error) : outcome :=
  match r with
  | Some e => Returns (Some (InvalidResponse e))
  | None => Returns None
  end.

(** The (class, tag) pair of [v] is that of one of the four reserved
    values. *)
Definition placeholder (v : RawValue) : Prop :=
  (Class v = 2 /\ Tag v = 0) \/ (Class v = 2 /\ Tag v = 1) \/
  (Class v = 2 /\ Tag v = 2) \/ (Class v = 0 /\ Tag v = 5).

(** The identifier begins with the two components 1, 3. *)
Definition beginsWith13 (n : list Z) : Prop := exists r, n = 1 :: 3 :: r.

(** A binding that breaks a per-binding rule. *)
Definition offending (b : Binding) : Prop :=
  placeholder (Value b) \/ ~ beginsWith13 (Name b).

(** The count rules let the response through. *)
Definition countOK (resp : Response) (req : Request) : Prop :=
  let n := length (RespBindings resp) in
  let m := length (ReqBindings req) in
  n <> 0%nat /\ (m <= n)%nat /\ ((n <= m)%nat \/ Type_ req = "GetBulk").

(** A response with other bindings. *)
Definition withBindings (resp : Response) (bs : list Binding) : Response :=
  mkResponse (RespID resp) (ErrorStatus resp) (ErrorIndex resp) bs.

(** A request of another type. *)
Definition withType (req : Request) (ty : string) : Request :=
  mkRequest (ReqID req) ty (ReqBindings req) (NonRepeaters req)
    (MaxRepetitions req).

(** [bs'] is [bs] with every value run through [convertClass]. *)
Definition normalizedFrom (bs bs' : list Binding) : Prop :=
  Forall2 (fun b b' => Name b' = Name b /\
                       convertClass (Value b) = Some (Value b')) bs bs'.

(** The fields common to the two PDU layouts. *)
Definition pduTag (p : PDU) : Z :=
  match p with StatusPDU t _ | BulkPDU t _ => t end.

Definition pduRequestID (p : PDU) : Z :=
  match p with
  | StatusPDU _ d => sd_RequestID d
  | BulkPDU _ d => bd_RequestID d
  end.

Definition pduBindings (p : PDU) : list Binding :=
  match p with
  | StatusPDU _ d => sd_Bindings d
  | BulkPDU _ d => bd_Bindings d
  end.

(** * Properties *)

(** ** Class normalization *)

Section ConvertClass.

Lemma store_head {A} (b : A) (fb : list A) (x : A) :
  store (b :: fb) 0 x = Some (x :: fb).
Proof.
  unfold store. destruct (decide _) as [|n]; [reflexivity|].
  exfalso. apply n. simpl. lia.
Qed.

Lemma store_nil {A} (i : nat) (x : A) : store [] i x = None.
Proof.
  unfold store. destruct (decide _) as [l|]; [|reflexivity].
  simpl in l. lia.
Qed.

Lemma convertClass_octets (v : RawValue) :
  toOctetString v ->
  convertClass v =
    fb ← store (FullBytes v) 0 x04;
    Some (mkRawValue 0 4 (IsCompound v) (Bytes v) fb).
Proof.
  intros [Hc Ht]. unfold convertClass. rewrite Hc. simpl.
  destruct Ht as [-> | ->]; reflexivity.
Qed.

Lemma convertClass_integer (v : RawValue) :
  toInteger v ->
  convertClass v =
    fb ← store (FullBytes v) 0 x02;
    Some (mkRawValue 0 2 (IsCompound v) (Bytes v) fb).
Proof.
  intros [Hc Ht]. unfold convertClass. rewrite Hc. simpl.
  destruct Ht as [-> | [-> | [-> | ->]]]; reflexivity.
Qed.

Lemma convertClass_other (v : RawValue) :
  ~ toOctetString v -> ~ toInteger v -> convertClass v = Some v.
Proof.
  intros Ho Hi. unfold convertClass, toOctetString, toInteger in *.
  destruct (Class v =? 1) eqn:Hc; simpl; [|reflexivity].
  apply Z.eqb_eq in Hc.
  destruct (Tag v =? 0) eqn:H0; [apply Z.eqb_eq in H0; tauto|].
  destruct (Tag v =? 4) eqn:H4; [apply Z.eqb_eq in H4; tauto|].
  destruct (Tag v =? 1) eqn:H1; [apply Z.eqb_eq in H1; tauto|].
  destruct (Tag v =? 2) eqn:H2; [apply Z.eqb_eq in H2; tauto|].
  destruct (Tag v =? 3) eqn:H3; [apply Z.eqb_eq in H3; tauto|].
  destruct (Tag v =? 6) eqn:H6; [apply Z.eqb_eq in H6; tauto|].
  reflexivity.
Qed.

Lemma rewritten_dec (v : RawValue) :
  toOctetString v \/ toInteger v \/ (~ toOctetString v /\ ~ toInteger v).
Proof. unfold toOctetString, toInteger. lia. Qed.

End ConvertClass.

(** C6, as the claim states it, fails on a value with the application class
    whose encoded form is empty: the write to [FullBytes[0]] panics and
    there is no result at all. *)
Lemma convertClass_empty_encoding_panics :
  toOctetString (rawLit 1 0) /\
  ~ (exists v', convertClass (rawLit 1 0) = Some v' /\
                Class v' = 0 /\ Tag v' = 4 /\ FullBytes v' !! 0%nat = Some x04).
Proof.
  split; [split; [reflexivity | left; reflexivity]|].
  intros (v' & H & _). vm_compute in H. discriminate.
Qed.

(** C6 (amended): for a value whose encoded form is not empty, application
    tags 0 and 4 give the universal class, tag 4 and a leading byte 0x04,
    application tags 1, 2, 3 and 6 give the universal class, tag 2 and a
    leading byte 0x02; every other (class, tag) pair is left unchanged,
    whatever the encoded form. *)
Theorem convertClass_rewrites (v : RawValue) :
  (forall b fb, FullBytes v = b :: fb -> toOctetString v ->
     convertClass v = Some (mkRawValue 0 4 (IsCompound v) (Bytes v) (x04 :: fb))) /\
  (forall b fb, FullBytes v = b :: fb -> toInteger v ->
     convertClass v = Some (mkRawValue 0 2 (IsCompound v) (Bytes v) (x02 :: fb))) /\
  (~ toOctetString v -> ~ toInteger v -> convertClass v = Some v).
Proof.
  split; [|split].
  - intros b fb Hfb Ho. rewrite (convertClass_octets v Ho), Hfb, store_head.
    reflexivity.
  - intros b fb Hfb Hi. rewrite (convertClass_integer v Hi), Hfb, store_head.
    reflexivity.
  - apply convertClass_other.
Qed.

Lemma convertClass_rewrites_witness :
  convertClass (mkRawValue 1 3 false [x2a] [x43; x01; x2a]) =
    Some (mkRawValue 0 2 false [x2a] [x02; x01; x2a]) /\
  convertClass (mkRawValue 1 4 false [x2a] [x44; x01; x2a]) =
    Some (mkRawValue 0 4 false [x2a] [x04; x01; x2a]) /\
  convertClass (mkRawValue 2 1 false [] []) = Some (mkRawValue 2 1 false [] []).
Proof.
  split; [|split].
  - apply (proj1 (proj2 (convertClass_rewrites
                           (mkRawValue 1 3 false [x2a] [x43; x01; x2a])))
             x43 [x01; x2a]); [reflexivity|].
    split; simpl; lia.
  - apply (proj1 (convertClass_rewrites
                    (mkRawValue 1 4 false [x2a] [x44; x01; x2a]))
             x44 [x01; x2a]); [reflexivity|].
    split; simpl; lia.
  - apply (proj2 (proj2 (convertClass_rewrites (mkRawValue 2 1 false [] []))));
      intros [H _]; simpl in H; lia.
Defined.

(** C7: class normalization is idempotent.  Running [convertClass] on its
    own result changes nothing; when the first call panics there is no
    second call, and the sequence of both calls panics as the first does. *)
Theorem convertClass_idempotent (v : RawValue) :
  (convertClass v ≫= convertClass) = convertClass v /\
  (forall v', convertClass v = Some v' -> convertClass v' = Some v').
Proof.
  assert (Hstep : forall v', convertClass v = Some v' -> convertClass v' = Some v').
  { intros v' H.
    destruct (rewritten_dec v) as [Ho | [Hi | [Ho Hi]]].
    - rewrite (convertClass_octets v Ho) in H.
      destruct (store (FullBytes v) 0 x04); simpl in H; [|discriminate].
      injection H as <-. reflexivity.
    - rewrite (convertClass_integer v Hi) in H.
      destruct (store (FullBytes v) 0 x02); simpl in H; [|discriminate].
      injection H as <-. reflexivity.
    - rewrite (convertClass_other v Ho Hi) in H. injection H as <-.
      apply convertClass_other; assumption. }
  split; [|exact Hstep].
  destruct (convertClass v) as [v'|] eqn:E; simpl; [|reflexivity].
  apply Hstep. reflexivity.
Qed.

Lemma convertClass_idempotent_witness :
  convertClass (mkRawValue 0 2 false [x2a] [x02; x01; x2a]) =
    Some (mkRawValue 0 2 false [x2a] [x02; x01; x2a]).
Proof.
  apply (proj2 (convertClass_idempotent
                  (mkRawValue 1 3 false [x2a] [x43; x01; x2a]))).
  reflexivity.
Defined.

Lemma drop_past_head {A} (l l' : list A) (off : nat) :
  drop 1 l' = drop 1 l -> drop (S off) l' = drop (S off) l.
Proof.
  destruct l as [|a l], l' as [|a' l']; simpl; rewrite ?drop_0;
    intros H; subst; rewrite ?drop_nil; reflexivity.
Qed.

(** C10: frame property of class normalization.  On a value with a
    non-empty encoded form [convertClass] returns, and its result differs
    from the argument at most in the class, the tag and the byte at index 0
    of the encoded form: the compound flag, the contents bytes, the length
    of the encoded form and every byte of it past the first (hence any
    window of it that starts past the first byte) are as before.  The
    encoded form is touched only for the application class with tag 0, 1,
    2, 3, 4 or 6; on every other value the call returns the value as it is,
    also when the encoded form is empty. *)
Theorem convertClass_frame (v : RawValue) :
  (FullBytes v <> [] ->
   exists v', convertClass v = Some v' /\
     IsCompound v' = IsCompound v /\
     Bytes v' = Bytes v /\
     length (FullBytes v') = length (FullBytes v) /\
     drop 1 (FullBytes v') = drop 1 (FullBytes v) /\
     (forall off, drop (S off) (FullBytes v') = drop (S off) (FullBytes v))) /\
  (~ (Class v = 1 /\ (Tag v = 0 \/ Tag v = 1 \/ Tag v = 2 \/ Tag v = 3 \/
                      Tag v = 4 \/ Tag v = 6)) ->
   convertClass v = Some v).
Proof.
  split.
  - intros Hne.
    destruct (FullBytes v) as [|b fb] eqn:Hfb; [congruence|].
    destruct (rewritten_dec v) as [Ho | [Hi | [Ho Hi]]].
    + eexists. rewrite (convertClass_octets v Ho), Hfb, store_head. simpl.
      split; [reflexivity|]. simpl. repeat split; auto.
    + eexists. rewrite (convertClass_integer v Hi), Hfb, store_head. simpl.
      split; [reflexivity|]. simpl. repeat split; auto.
    + exists v. rewrite (convertClass_other v Ho Hi), Hfb. repeat split; auto.
  - intros Hn. apply convertClass_other; unfold toOctetString, toInteger; lia.
Qed.

Lemma convertClass_frame_witness :
  (exists v', convertClass (mkRawValue 1 6 true [x2a] [x46; x01; x2a]) = Some v' /\
     IsCompound v' = true /\
     Bytes v' = [x2a] /\
     length (FullBytes v') = 3%nat /\
     drop 1 (FullBytes v') = [x01; x2a] /\
     (forall off, drop (S off) (FullBytes v') = drop (S off) [x46; x01; x2a])) /\
  convertClass (mkRawValue 1 5 false [] []) = Some (mkRawValue 1 5 false [] []).
Proof.
  split.
  - apply (proj1 (convertClass_frame (mkRawValue 1 6 true [x2a] [x46; x01; x2a]))).
    simpl. discriminate.
  - apply (proj2 (convertClass_frame (mkRawValue 1 5 false [] []))).
    simpl. lia.
Defined.

(** ** The binding order *)

Section Less.

Lemma idx_drop (l : list Z) (i : nat) (x : Z) (l' : list Z) :
  drop i l = x :: l' -> idx l i = x /\ drop (S i) l = l'.
Proof.
  revert l. induction i as [|i IH]; intros [|y l]; simpl; try discriminate.
  - intros [= -> ->]. rewrite ?drop_0. auto.
  - intros H. destruct (IH l H) as [H1 H2]. auto.
Qed.

Lemma less_loop_scan (a b : list Z) (dflt : bool) (k i : nat) :
  (i + k <= length a)%nat -> (i + k <= length b)%nat ->
  less_loop a b i k dflt = scan (drop i a) (drop i b) k dflt.
Proof.
  revert i. induction k as [|k IH]; intros i Ha Hb; simpl; [reflexivity|].
  destruct (drop i a) as [|x a'] eqn:Ea.
  { apply (f_equal length) in Ea. rewrite length_drop in Ea. simpl in Ea. lia. }
  destruct (drop i b) as [|y b'] eqn:Eb.
  { apply (f_equal length) in Eb. rewrite length_drop in Eb. simpl in Eb. lia. }
  destruct (idx_drop _ _ _ _ Ea) as [-> <-].
  destruct (idx_drop _ _ _ _ Eb) as [-> <-].
  rewrite IH by lia. reflexivity.
Qed.

Lemma scan_lexLess (a b : list Z) :
  scan a b (Nat.min (length a) (length b)) (length a <? length b)%nat
  = lexLess a b.
Proof.
  revert b. induction a as [|x a IH]; intros [|y b]; simpl; try reflexivity.
  rewrite <- IH. reflexivity.
Qed.

Lemma less_lexLess (a b : Binding) : less a b = lexLess (Name a) (Name b).
Proof.
  unfold less. rewrite <- scan_lexLess.
  destruct (length (Name a) <? length (Name b))%nat eqn:Hlt.
  - apply Nat.ltb_lt in Hlt. rewrite less_loop_scan by lia.
    rewrite ?drop_0, Nat.min_l by lia. reflexivity.
  - apply Nat.ltb_ge in Hlt.
    destruct (length (Name a) =? length (Name b))%nat eqn:Heq.
    + apply Nat.eqb_eq in Heq. rewrite less_loop_scan by lia.
      rewrite ?drop_0, Nat.min_l by lia. reflexivity.
    + apply Nat.eqb_neq in Heq. rewrite less_loop_scan by lia.
      rewrite ?drop_0, Nat.min_r by lia. reflexivity.
Qed.

Lemma lexLess_asym (a b : list Z) : lexLess a b = true -> lexLess b a = false.
Proof.
  revert b. induction a as [|x a IH]; intros [|y b]; simpl; try congruence.
  destruct (x <? y) eqn:Hxy.
  - apply Z.ltb_lt in Hxy. intros _.
    replace (y <? x) with false by (symmetry; apply Z.ltb_ge; lia).
    replace (y =? x) with false by (symmetry; apply Z.eqb_neq; lia).
    reflexivity.
  - destruct (x =? y) eqn:Exy; [|discriminate].
    apply Z.eqb_eq in Exy. subst y. rewrite Z.ltb_irrefl, Z.eqb_refl.
    apply IH.
Qed.

Lemma lexLess_irrefl (a : list Z) : lexLess a a = false.
Proof.
  induction a as [|x a IH]; simpl; [reflexivity|].
  rewrite Z.ltb_irrefl, Z.eqb_refl. exact IH.
Qed.

Lemma lexLess_app (a : list Z) (c : Z) (r : list Z) :
  lexLess a (a ++ c :: r) = true.
Proof.
  induction a as [|x a IH]; simpl; [reflexivity|].
  rewrite Z.ltb_irrefl, Z.eqb_refl. exact IH.
Qed.

Lemma strictPrefix_app (a b : list Z) :
  strictPrefix a b -> exists c r, b = a ++ c :: r.
Proof.
  intros [Hlen Hcomp].
  assert (Ht : take (length a) b = a).
  { apply list_eq. intros i.
    destruct (decide (i < length a)%nat) as [Hi|Hi].
    - rewrite lookup_take_lt by lia. symmetry. apply Hcomp, Hi.
    - rewrite lookup_take_ge by lia. symmetry. apply lookup_ge_None. lia. }
  destruct (drop (length a) b) as [|c r] eqn:Ed.
  { apply (f_equal length) in Ed. rewrite length_drop in Ed. simpl in Ed. lia. }
  exists c, r. rewrite <- Ed, <- Ht at 1. rewrite Ht.
  rewrite <- Ht at 1. apply eq_sym, take_drop.
Qed.

End Less.

(** C3: [less a b] and [less b a] are never both true; when the identifier
    of [a] is a strict prefix of the identifier of [b], [less a b] is true
    and [less b a] is false; bindings with identical identifiers satisfy
    neither. *)
Theorem less_antisymmetric_prefix (a b : Binding) :
  ~ (less a b = true /\ less b a = true) /\
  (strictPrefix (Name a) (Name b) -> less a b = true /\ less b a = false) /\
  (Name a = Name b -> less a b = false /\ less b a = false).
Proof.
  rewrite !less_lexLess. split; [|split].
  - intros [H1 H2]. apply lexLess_asym in H1. congruence.
  - intros Hp. destruct (strictPrefix_app _ _ Hp) as (c & r & ->).
    pose proof (lexLess_app (Name a) c r) as H.
    split; [exact H | apply lexLess_asym, H].
  - intros ->. split; apply lexLess_irrefl.
Qed.

Lemma less_antisymmetric_prefix_witness :
  (less (mkBinding [1; 3; 6] null) (mkBinding [1; 3; 6; 1] noSuchObject) = true /\
   less (mkBinding [1; 3; 6; 1] noSuchObject) (mkBinding [1; 3; 6] null) = false) /\
  (less (mkBinding [1; 3; 6] null) (mkBinding [1; 3; 6] noSuchObject) = false /\
   less (mkBinding [1; 3; 6] noSuchObject) (mkBinding [1; 3; 6] null) = false).
Proof.
  split.
  - apply (proj1 (proj2 (less_antisymmetric_prefix
                           (mkBinding [1; 3; 6] null)
                           (mkBinding [1; 3; 6; 1] noSuchObject)))).
    split; [simpl; lia|].
    intros [|[|[|i]]] Hi; simpl in *; try reflexivity; lia.
  - apply (proj2 (proj2 (less_antisymmetric_prefix
                           (mkBinding [1; 3; 6] null)
                           (mkBinding [1; 3; 6] noSuchObject)))).
    reflexivity.
Defined.

(** ** The printable-string heuristic *)

Section ToString.

Lemma copyPrintable_Some (cs buf : list Byte.byte) :
  copyPrintable cs = Some buf <-> Forall printable cs /\ buf = cs.
Proof.
  revert buf. induction cs as [|c cs IH]; intros buf; simpl.
  - split; [intros [= <-]; auto | intros [_ ->]; reflexivity].
  - destruct (byteval c <? 32) eqn:Hlo; simpl.
    { apply Z.ltb_lt in Hlo. split; [discriminate|].
      intros [H _]. inversion H as [|? ? Hp]; subst.
      unfold printable in Hp. lia. }
    destruct (126 <? byteval c) eqn:Hhi; simpl.
    { apply Z.ltb_lt in Hhi. split; [discriminate|].
      intros [H _]. inversion H as [|? ? Hp]; subst.
      unfold printable in Hp. lia. }
    apply Z.ltb_ge in Hlo, Hhi.
    destruct (copyPrintable cs) as [buf'|] eqn:E; simpl.
    + destruct (proj1 (IH buf') eq_refl) as [Hall ->]. split.
      * intros [= <-]. split; [constructor; [split|]; assumption | reflexivity].
      * intros [_ ->]. reflexivity.
    + split; [discriminate|]. intros [H _].
      inversion H as [|? ? _ Hall]; subst.
      specialize (proj2 (IH cs) (conj Hall eq_refl)). discriminate.
Qed.

Lemma copyPrintable_None (cs : list Byte.byte) :
  copyPrintable cs = None <-> ~ Forall printable cs.
Proof.
  destruct (copyPrintable cs) as [buf|] eqn:E.
  - apply copyPrintable_Some in E as [H _]. split; [discriminate | tauto].
  - split; [|reflexivity]. intros _ H.
    specialize (proj2 (copyPrintable_Some cs cs) (conj H eq_refl)). congruence.
Qed.

Lemma toString_true (x : list Byte.byte) (s : string) :
  toString x = (s, true) <->
  exists x0 rest, x = x0 :: rest /\
    byteval x0 = Z.of_nat (length rest) /\ Forall printable rest /\
    s = string_of_list_byte rest.
Proof.
  split.
  - destruct x as [|x0 rest]; simpl; [discriminate|].
    destruct (byteval x0 =? Z.of_nat (length rest)) eqn:Hlen; simpl;
      [|discriminate].
    apply Z.eqb_eq in Hlen.
    destruct (copyPrintable rest) as [buf|] eqn:E; [|discriminate].
    apply copyPrintable_Some in E as [Hall ->]. intros [= <-].
    exists x0, rest. auto.
  - intros (x0 & rest & -> & Hlen & Hall & ->). simpl.
    rewrite (proj2 (Z.eqb_eq _ _) Hlen). simpl.
    rewrite (proj2 (copyPrintable_Some rest rest) (conj Hall eq_refl)).
    reflexivity.
Qed.

Lemma toString_false (x : list Byte.byte) :
  ~ wellFormed x -> toString x = ("", false).
Proof.
  intros Hn. destruct x as [|x0 rest]; simpl; [reflexivity|].
  destruct (byteval x0 =? Z.of_nat (length rest)) eqn:Hlen; simpl;
    [|reflexivity].
  apply Z.eqb_eq in Hlen.
  destruct (copyPrintable rest) as [buf|] eqn:E; [|reflexivity].
  apply copyPrintable_Some in E as [Hall _].
  exfalso. apply Hn. exists x0, rest. auto.
Qed.

Lemma length_list_byte_of_string (s : string) :
  length (list_byte_of_string s) = String.length s.
Proof.
  induction s as [|c s IH]; simpl; [reflexivity|].
  f_equal. exact IH.
Qed.

End ToString.

(** C5: [toString x] returns the bytes after the first as text exactly when
    [x] is not empty, its first byte equals the number of remaining bytes
    and every remaining byte is in [0x20, 0x7e]; otherwise it returns no
    result.  Hence a printable text of length at most 255 with its length
    byte in front decodes to itself, and an input with a payload byte
    outside the range returns no result. *)
Theorem toString_printable (x : list Byte.byte) :
  (forall s, toString x = (s, true) <->
     exists x0 rest, x = x0 :: rest /\
       byteval x0 = Z.of_nat (length rest) /\ Forall printable rest /\
       s = string_of_list_byte rest) /\
  (~ wellFormed x -> toString x = ("", false)) /\
  (forall s, (String.length s <= 255)%nat ->
     Forall printable (list_byte_of_string s) ->
     lengthPrefixed s = Some x -> toString x = (s, true)) /\
  (forall s, (String.length s <= 255)%nat -> lengthPrefixed s <> None) /\
  (forall x0 rest c, x = x0 :: rest -> c ∈ rest -> ~ printable c ->
     toString x = ("", false)).
Proof.
  split; [apply toString_true|]. split; [apply toString_false|].
  split; [|split].
  - intros s Hlen Hp Henc. unfold lengthPrefixed in Henc.
    destruct (Byte.of_nat (String.length s)) as [l|] eqn:El; [|discriminate].
    simpl in Henc. injection Henc as <-.
    apply toString_true. exists l, (list_byte_of_string s).
    split; [reflexivity|]. split; [|split; [exact Hp|]].
    + apply Byte.to_of_nat in El.
      unfold byteval. rewrite Byte.to_N_via_nat, El.
      rewrite length_list_byte_of_string. lia.
    + symmetry. apply string_of_list_byte_of_string.
  - intros s Hlen. unfold lengthPrefixed.
    destruct (Byte.of_nat (String.length s)) as [l|] eqn:El; [discriminate|].
    apply Byte.of_nat_None_iff in El. lia.
  - intros x0 rest c -> Hin Hc. apply toString_false.
    intros (y0 & rest' & [= <- <-] & _ & Hall).
    apply Hc. rewrite Forall_forall in Hall. apply Hall, Hin.
Qed.

Lemma toString_printable_witness :
  toString [x02; x68; x69] = ("hi", true) /\
  toString [x02; x68; x07] = ("", false).
Proof.
  split.
  - apply (proj1 (proj2 (proj2 (toString_printable [x02; x68; x69]))) "hi").
    + simpl. lia.
    + repeat constructor; vm_compute; discriminate.
    + reflexivity.
  - apply (proj2 (proj2 (proj2 (proj2 (toString_printable [x02; x68; x07]))))
             x02 [x68; x07] x07).
    + reflexivity.
    + set_solver.
    + unfold printable. vm_compute. intros [H _]. apply H. reflexivity.
Defined.

(** ** Error-status texts *)

Section ErrorStatus.

Lemma errorText_outside (e : Z) : ~ 0 <= e <= 18 -> errorText !! e = None.
Proof.
  intros He. unfold errorText. apply not_elem_of_list_to_map_1.
  cbn [fmap list_fmap fst]. rewrite !elem_of_cons, elem_of_nil. lia.
Qed.

Lemma errorText_inside (e : Z) :
  0 <= e <= 18 -> errorText !! e = rfc3416 !! Z.to_nat e.
Proof.
  intros He.
  assert (H : e = 0 \/ e = 1 \/ e = 2 \/ e = 3 \/ e = 4 \/ e = 5 \/ e = 6 \/
              e = 7 \/ e = 8 \/ e = 9 \/ e = 10 \/ e = 11 \/ e = 12 \/
              e = 13 \/ e = 14 \/ e = 15 \/ e = 16 \/ e = 17 \/ e = 18) by lia.
  repeat (destruct H as [-> | H]; [vm_compute; reflexivity|]).
  subst e. vm_compute. reflexivity.
Qed.

Lemma rfc3416_nonempty (s : string) : s ∈ rfc3416 -> s <> "".
Proof.
  unfold rfc3416. rewrite !elem_of_cons, elem_of_nil.
  intros H. repeat (destruct H as [-> | H]; [discriminate|]). contradiction.
Qed.

End ErrorStatus.

(** C9: the rendering of an error status is a fixed lookup: a code from 0
    to 18 renders as the RFC 3416 text of that code (0 as "no error", 2 as
    "no such name"), any other code as "code " followed by the code in
    decimal, and no code renders as the empty string. *)
Theorem errorStatus_String_lookup (e : Z) :
  (0 <= e <= 18 -> rfc3416 !! Z.to_nat e = Some (errorStatus_String e)) /\
  errorStatus_String 0 = "no error" /\
  errorStatus_String 2 = "no such name" /\
  (~ 0 <= e <= 18 -> errorStatus_String e = "code " +:+ fmt_d e) /\
  errorStatus_String e <> "".
Proof.
  assert (Hin : 0 <= e <= 18 ->
                rfc3416 !! Z.to_nat e = Some (errorStatus_String e)).
  { intros He. unfold errorStatus_String. rewrite (errorText_inside e He).
    destruct (rfc3416 !! Z.to_nat e) as [s|] eqn:E.
    - simpl. pose proof (rfc3416_nonempty s (list_elem_of_lookup_2 _ _ _ E)) as Hs.
      destruct (String.eqb_spec s ""); [contradiction | reflexivity].
    - apply lookup_ge_None in E. simpl in E. lia. }
  assert (Hout : ~ 0 <= e <= 18 -> errorStatus_String e = "code " +:+ fmt_d e).
  { intros He. unfold errorStatus_String. rewrite (errorText_outside e He).
    reflexivity. }
  split; [exact Hin|]. split; [vm_compute; reflexivity|].
  split; [vm_compute; reflexivity|]. split; [exact Hout|].
  destruct (decide (0 <= e <= 18)) as [He|He].
  - specialize (Hin He). apply list_elem_of_lookup_2, rfc3416_nonempty in Hin.
    exact Hin.
  - rewrite (Hout He). discriminate.
Qed.

Lemma errorStatus_String_lookup_witness :
  rfc3416 !! 5%nat = Some (errorStatus_String 5) /\
  errorStatus_String 19 = "code 19" /\
  errorStatus_String (-1) = "code -1".
Proof.
  split; [|split].
  - apply (proj1 (errorStatus_String_lookup 5)). lia.
  - apply (proj1 (proj2 (proj2 (proj2 (errorStatus_String_lookup 19))))). lia.
  - apply (proj1 (proj2 (proj2 (proj2 (errorStatus_String_lookup (-1)))))). lia.
Defined.

(** ** The GetBulk PDU *)

Lemma buildEnvelope_GetBulk (community : string) (req : Request) :
  Type_ req = "GetBulk" ->
  buildEnvelope community req =
    Some (mkEnvelope 1 community
            (BulkPDU 5 (mkBulkData (ReqID req) 0 (MaxRepetitions req)
                          (clearValues (ReqBindings req))))).
Proof. intros H. unfold buildEnvelope. rewrite H. reflexivity. Qed.

Lemma clearValues_names (bs : list Binding) :
  map Name (clearValues bs) = map Name bs.
Proof.
  unfold clearValues. induction bs as [|b bs IH]; simpl; [reflexivity|].
  f_equal. exact IH.
Qed.

(** C1: the GetBulk PDU carries the request id and the request's
    max-repetitions, but its nonRepeaters field is the constant 0: a request
    with [NonRepeaters = 1] is sent with nonRepeaters 0, so the value does
    not survive encoding. *)
Theorem GetBulk_nonRepeaters_dropped :
  let req := mkRequest 42 "GetBulk" [mkBinding [1; 3; 6; 1; 2; 1] null] 1 10 in
  NonRepeaters req = 1 /\
  (buildEnvelope "public" req ≫= bulkFields) = Some (42, 0, 10).
Proof. split; reflexivity. Qed.

(** ** The response validator *)

Section Check.

Variables (resp : Response) (req : Request).

(** The response gets past the id and error-status tests. *)
Hypothesis Hid : RespID resp = ReqID req.

Lemma check_body_status_ok :
  ErrorStatus resp = 0 ->
  check_body resp req =
    let n := length (RespBindings resp) in
    if (n =? 0)%nat then Returns (Some NoBindings)
    else if (n <? length (ReqBindings req))%nat then Returns (Some MissingBindings)
    else if (length (ReqBindings req) <? n)%nat
            && negb (String.eqb (Type_ req) "GetBulk")
    then Returns (Some ExtraneousBindings)
    else Returns (checkBindings (RespBindings resp)).
Proof.
  intros Hst. unfold check_body. rewrite Hid, Z.eqb_refl, Hst. reflexivity.
Qed.

Lemma check_body_server_error :
  ErrorStatus resp <> 0 ->
  check_body resp req =
    let err := ServerError (errorStatus_String (ErrorStatus resp)) in
    if (0 <=? ErrorIndex resp)
       && (ErrorIndex resp <? Z.of_nat (length (RespBindings resp))) then
      match ReqBindings req !! Z.to_nat (ErrorIndex resp) with
      | Some b => Returns (Some (BindingContext b err))
      | None => Panics
      end
    else Returns (Some err).
Proof.
  intros Hst. unfold check_body. rewrite Hid, Z.eqb_refl.
  apply Z.eqb_neq in Hst. rewrite Hst. reflexivity.
Qed.

End Check.

(** What [check] does on a server error: the request binding is looked up
    under a guard on the response bindings, so the lookup succeeds only
    when the index is also within the request bindings. *)
Lemma check_server_error (resp : Response) (req : Request) :
  RespID resp = ReqID req -> ErrorStatus resp <> 0 ->
  let err := ServerError (errorStatus_String (ErrorStatus resp)) in
  let i := ErrorIndex resp in
  (~ (0 <= i < Z.of_nat (length (RespBindings resp))) ->
     check resp req = Returns (Some (InvalidResponse err))) /\
  (forall b, 0 <= i < Z.of_nat (length (RespBindings resp)) ->
     ReqBindings req !! Z.to_nat i = Some b ->
     check resp req = Returns (Some (InvalidResponse (BindingContext b err)))) /\
  (0 <= i < Z.of_nat (length (RespBindings resp)) ->
     Z.of_nat (length (ReqBindings req)) <= i ->
     check resp req = Panics).
Proof.
  intros Hid Hst err i. unfold check.
  rewrite (check_body_server_error resp req Hid Hst). fold err. fold i. cbv zeta.
  split; [|split].
  - intros Hn.
    destruct ((0 <=? i) && (i <? Z.of_nat (length (RespBindings resp)))) eqn:G;
      [|reflexivity].
    apply andb_true_iff in G as [G1 G2].
    apply Z.leb_le in G1. apply Z.ltb_lt in G2. lia.
  - intros b Hi Hb.
    replace ((0 <=? i) && (i <? Z.of_nat (length (RespBindings resp)))) with true.
    + rewrite Hb. reflexivity.
    + symmetry. apply andb_true_iff. split; [apply Z.leb_le | apply Z.ltb_lt]; lia.
  - intros Hi Hge.
    replace ((0 <=? i) && (i <? Z.of_nat (length (RespBindings resp)))) with true.
    + replace (ReqBindings req !! Z.to_nat i) with (@None Binding); [reflexivity|].
      symmetry. apply lookup_ge_None. lia.
    + symmetry. apply andb_true_iff. split; [apply Z.leb_le | apply Z.ltb_lt]; lia.
Qed.

(** C2: with a matching id and error status 2, an error index that is
    within the response bindings but past the request bindings makes
    [check] panic on [req.Bindings[i]] instead of returning the server
    error. *)
Theorem check_error_index_panics :
  let req := mkRequest 42 "Get" [mkBinding [1; 3; 6; 1; 2; 1; 1; 1; 0] null] 0 0 in
  let resp := mkResponse 42 2 1
                [ mkBinding [1; 3; 6; 1; 2; 1; 1; 1; 0] null;
                  mkBinding [1; 3; 6; 1; 2; 1; 1; 2; 0] null ] in
  RespID resp = ReqID req /\ ErrorStatus resp <> 0 /\
  0 <= ErrorIndex resp < Z.of_nat (length (RespBindings resp)) /\
  check resp req = Panics.
Proof. cbv zeta. simpl. repeat split; try lia. Qed.

(** C4: for a response with the request's id and error status 0, the count
    rules apply in the order given: with no bindings [check] returns "no
    bindings"; otherwise, with fewer bindings than the request, "missing
    bindings"; otherwise, with more bindings than the request and a request
    type other than GetBulk, "extraneous bindings"; for GetBulk a response
    with more bindings than the request goes on to the per-binding checks,
    whose result is the result of [check], success when they all pass. *)
Theorem check_binding_count (resp : Response) (req : Request) :
  RespID resp = ReqID req -> ErrorStatus resp = 0 ->
  let n := length (RespBindings resp) in
  let m := length (ReqBindings req) in
  (n = 0%nat -> check resp req = Returns (Some (InvalidResponse NoBindings))) /\
  (n <> 0%nat -> (n < m)%nat ->
     check resp req = Returns (Some (InvalidResponse MissingBindings))) /\
  (n <> 0%nat -> (n > m)%nat -> Type_ req <> "GetBulk" ->
     check resp req = Returns (Some (InvalidResponse ExtraneousBindings))) /\
  ((n > m)%nat -> Type_ req = "GetBulk" ->
     check resp req = wrapped (checkBindings (RespBindings resp)) /\
     (checkBindings (RespBindings resp) = None -> check resp req = Returns None)).
Proof.
  intros Hid Hst n m. unfold check.
  rewrite (check_body_status_ok resp req Hid Hst). fold n. fold m. cbv zeta.
  split; [|split; [|split]].
  - intros ->. reflexivity.
  - intros Hn Hlt. apply Nat.eqb_neq in Hn. rewrite Hn.
    apply Nat.ltb_lt in Hlt. rewrite Hlt. reflexivity.
  - intros Hn Hgt Hty. apply Nat.eqb_neq in Hn. rewrite Hn.
    replace (n <? m)%nat with false by (symmetry; apply Nat.ltb_ge; lia).
    replace (m <? n)%nat with true by (symmetry; apply Nat.ltb_lt; lia).
    apply String.eqb_neq in Hty. rewrite Hty. reflexivity.
  - intros Hgt Hty.
    replace (n =? 0)%nat with false by (symmetry; apply Nat.eqb_neq; lia).
    replace (n <? m)%nat with false by (symmetry; apply Nat.ltb_ge; lia).
    rewrite Hty, String.eqb_refl, andb_false_r.
    split; [destruct (checkBindings _); reflexivity|].
    intros ->. reflexivity.
Qed.

Lemma check_binding_count_witness :
  check (mkResponse 7 0 0
           [ mkBinding [1; 3; 6; 1] (rawLit 0 2);
             mkBinding [1; 3; 6; 2] (rawLit 0 4) ])
        (mkRequest 7 "GetBulk" [mkBinding [1; 3; 6] null] 0 10)
  = Returns None /\
  check (mkResponse 7 0 0
           [ mkBinding [1; 3; 6; 1] (rawLit 0 2);
             mkBinding [1; 3; 6; 2] (rawLit 0 4) ])
        (mkRequest 7 "Get" [mkBinding [1; 3; 6] null] 0 10)
  = Returns (Some (InvalidResponse ExtraneousBindings)).
Proof.
  split.
  - apply (proj2 (proj2 (proj2 (check_binding_count
             (mkResponse 7 0 0
                [ mkBinding [1; 3; 6; 1] (rawLit 0 2);
                  mkBinding [1; 3; 6; 2] (rawLit 0 4) ])
             (mkRequest 7 "GetBulk" [mkBinding [1; 3; 6] null] 0 10)
             eq_refl eq_refl)))); simpl; [lia | reflexivity | reflexivity].
  - apply (proj1 (proj2 (proj2 (check_binding_count
             (mkResponse 7 0 0
                [ mkBinding [1; 3; 6; 1] (rawLit 0 2);
                  mkBinding [1; 3; 6; 2] (rawLit 0 4) ])
             (mkRequest 7 "Get" [mkBinding [1; 3; 6] null] 0 10)
             eq_refl eq_refl)))); simpl; [lia | lia | discriminate].
Defined.

Section Content.

Lemma hasPrefix_13 (n : list Z) : hasPrefix n [1; 3] = true <-> beginsWith13 n.
Proof.
  unfold beginsWith13. split.
  - destruct n as [|x [|y r]]; try discriminate.
    unfold hasPrefix, idx. simpl. rewrite !andb_true_iff, !Z.eqb_eq.
    intros (-> & -> & _). eauto.
  - intros [r ->]. reflexivity.
Qed.

Lemma eqv_lit (v : RawValue) (c t : Z) :
  eqv v (rawLit c t) = true <-> Class v = c /\ Tag v = t.
Proof. unfold eqv. simpl. rewrite andb_true_iff, !Z.eqb_eq. tauto. Qed.

Lemma checkBinding_None (b : Binding) :
  checkBinding b = None <-> ~ offending b.
Proof.
  unfold checkBinding, offending, placeholder, noSuchObject, noSuchInstance,
    endOfMibView, null.
  destruct (eqv (Value b) (rawLit 2 0)) eqn:E1;
    [apply eqv_lit in E1; split; [discriminate | tauto]|].
  destruct (eqv (Value b) (rawLit 2 1)) eqn:E2;
    [apply eqv_lit in E2; split; [discriminate | tauto]|].
  destruct (eqv (Value b) (rawLit 2 2)) eqn:E3;
    [apply eqv_lit in E3; split; [discriminate | tauto]|].
  destruct (eqv (Value b) (rawLit 0 5)) eqn:E4;
    [apply eqv_lit in E4; split; [discriminate | tauto]|].
  assert (N1 : ~ (Class (Value b) = 2 /\ Tag (Value b) = 0))
    by (rewrite <- eqv_lit; congruence).
  assert (N2 : ~ (Class (Value b) = 2 /\ Tag (Value b) = 1))
    by (rewrite <- eqv_lit; congruence).
  assert (N3 : ~ (Class (Value b) = 2 /\ Tag (Value b) = 2))
    by (rewrite <- eqv_lit; congruence).
  assert (N4 : ~ (Class (Value b) = 0 /\ Tag (Value b) = 5))
    by (rewrite <- eqv_lit; congruence).
  destruct (hasPrefix (Name b) [1; 3]) eqn:Hp; simpl.
  - apply hasPrefix_13 in Hp. split; [tauto | reflexivity].
  - split; [discriminate|]. intros Hn. exfalso. apply Hn. right.
    intros Hb. apply hasPrefix_13 in Hb. congruence.
Qed.

Lemma checkBinding_Some (b : Binding) :
  offending b -> exists e, checkBinding b = Some e.
Proof.
  intros Ho. destruct (checkBinding b) as [e|] eqn:E; [eauto|].
  apply checkBinding_None in E. contradiction.
Qed.

(** Every per-binding error carries the identifier of its binding. *)
Lemma checkBinding_names (b : Binding) (e : error) :
  checkBinding b = Some e ->
  e ∈ [ NoSuchObjectAt (Name b); NoSuchInstanceAt (Name b);
        EndOfMibViewAt (Name b); UnexpectedNullAt (Name b);
        MissingPrefixAt (Name b) ].
Proof.
  unfold checkBinding.
  repeat match goal with
         | |- context [if ?c then _ else _] => destruct c
         end; intros [= <-]; set_solver.
Qed.

Lemma checkBindings_first (l1 l2 : list Binding) (b : Binding) (e : error) :
  Forall (fun b' => ~ offending b') l1 -> checkBinding b = Some e ->
  checkBindings (l1 ++ b :: l2) = Some e.
Proof.
  intros Hall Hb. induction Hall as [|b' l1 Hb' _ IH]; simpl.
  - rewrite Hb. reflexivity.
  - apply checkBinding_None in Hb'. rewrite Hb'. exact IH.
Qed.

Lemma checkBindings_None (bs : list Binding) :
  checkBindings bs = None <-> Forall (fun b => ~ offending b) bs.
Proof.
  induction bs as [|b bs IH]; simpl.
  - split; [constructor | reflexivity].
  - destruct (checkBinding b) as [e|] eqn:E.
    + split; [discriminate|]. intros H. inversion H as [|? ? Hb _]; subst.
      apply checkBinding_None in Hb. congruence.
    + rewrite IH. apply checkBinding_None in E. split.
      * intros H. constructor; assumption.
      * intros H. inversion H; assumption.
Qed.

Lemma check_body_count_ok (resp : Response) (req : Request) :
  RespID resp = ReqID req -> ErrorStatus resp = 0 -> countOK resp req ->
  check_body resp req = Returns (checkBindings (RespBindings resp)).
Proof.
  intros Hid Hst (Hn & Hm & Hty).
  rewrite (check_body_status_ok resp req Hid Hst). cbv zeta.
  apply Nat.eqb_neq in Hn. rewrite Hn.
  replace (length (RespBindings resp) <? length (ReqBindings req))%nat
    with false by (symmetry; apply Nat.ltb_ge; lia).
  destruct Hty as [Hle | Hty].
  - replace (length (ReqBindings req) <? length (RespBindings resp))%nat
      with false by (symmetry; apply Nat.ltb_ge; lia).
    reflexivity.
  - rewrite Hty, String.eqb_refl, andb_false_r. reflexivity.
Qed.

Lemma check_wrapped (resp : Response) (req : Request) (e : error) :
  check resp req = Returns (Some e) -> exists e', e = InvalidResponse e'.
Proof.
  unfold check. destruct (check_body resp req) as [[e'|]|]; intros [=].
  subst e. eauto.
Qed.

Lemma check_success (resp : Response) (req : Request) :
  check resp req = Returns None <->
  RespID resp = ReqID req /\ ErrorStatus resp = 0 /\ countOK resp req /\
  Forall (fun b => ~ offending b) (RespBindings resp).
Proof.
  split.
  - unfold check, check_body, countOK.
    destruct (RespID resp =? ReqID req) eqn:Hid; simpl; [|discriminate].
    destruct (ErrorStatus resp =? 0) eqn:Hst; simpl.
    2:{ destruct (_ && _); [destruct (_ !! _)|]; discriminate. }
    apply Z.eqb_eq in Hid, Hst.
    destruct (length (RespBindings resp) =? 0)%nat eqn:Hn; [discriminate|].
    destruct (length (RespBindings resp) <? length (ReqBindings req))%nat
      eqn:Hlt; [discriminate|].
    destruct ((length (ReqBindings req) <? length (RespBindings resp))%nat
              && negb (String.eqb (Type_ req) "GetBulk")) eqn:Hex;
      [discriminate|].
    destruct (checkBindings (RespBindings resp)) eqn:Hcb; [discriminate|].
    intros _. apply Nat.eqb_neq in Hn. apply Nat.ltb_ge in Hlt.
    apply checkBindings_None in Hcb.
    repeat split; try assumption.
    apply andb_false_iff in Hex as [Hex | Hex].
    + left. apply Nat.ltb_ge in Hex. exact Hex.
    + right. apply negb_false_iff, String.eqb_eq in Hex. exact Hex.
  - intros (Hid & Hst & Hc & Hall). unfold check.
    rewrite (check_body_count_ok resp req Hid Hst Hc).
    apply checkBindings_None in Hall. rewrite Hall. reflexivity.
Qed.

End Content.

(** C8: for a response that passes the id, error-status and binding-count
    tests, [check] returns the error of the first response binding whose
    value has the (class, tag) pair of NoSuchObject, NoSuchInstance,
    EndOfMibView or Null, or whose identifier does not begin with 1, 3; that
    error names the binding's identifier.  Every error that [check] returns
    is wrapped in the "invalid response" marker, and [check] returns success
    exactly when no rule fails. *)
Theorem check_content_rules (resp : Response) (req : Request) :
  (RespID resp = ReqID req -> ErrorStatus resp = 0 -> countOK resp req ->
   forall l1 b l2,
     RespBindings resp = l1 ++ b :: l2 ->
     Forall (fun b' => ~ offending b') l1 -> offending b ->
     exists e, checkBinding b = Some e /\
       e ∈ [ NoSuchObjectAt (Name b); NoSuchInstanceAt (Name b);
             EndOfMibViewAt (Name b); UnexpectedNullAt (Name b);
             MissingPrefixAt (Name b) ] /\
       check resp req = Returns (Some (InvalidResponse e))) /\
  (forall e, check resp req = Returns (Some e) -> exists e', e = InvalidResponse e') /\
  (check resp req = Returns None <->
   RespID resp = ReqID req /\ ErrorStatus resp = 0 /\ countOK resp req /\
   Forall (fun b => ~ offending b) (RespBindings resp)).
Proof.
  split; [|split].
  - intros Hid Hst Hc l1 b l2 Hbs Hall Hb.
    destruct (checkBinding_Some b Hb) as [e He].
    exists e. split; [exact He|]. split; [apply checkBinding_names, He|].
    unfold check. rewrite (check_body_count_ok resp req Hid Hst Hc), Hbs.
    rewrite (checkBindings_first l1 l2 b e Hall He). reflexivity.
  - apply check_wrapped.
  - apply check_success.
Qed.

Lemma check_content_rules_witness :
  exists e, checkBinding (mkBinding [1; 3; 6; 1; 2] endOfMibView) = Some e /\
    e ∈ [ NoSuchObjectAt [1; 3; 6; 1; 2]; NoSuchInstanceAt [1; 3; 6; 1; 2];
          EndOfMibViewAt [1; 3; 6; 1; 2]; UnexpectedNullAt [1; 3; 6; 1; 2];
          MissingPrefixAt [1; 3; 6; 1; 2] ] /\
    check (mkResponse 7 0 0
             [ mkBinding [1; 3; 6; 1; 1] (rawLit 0 2);
               mkBinding [1; 3; 6; 1; 2] endOfMibView;
               mkBinding [2; 5] (rawLit 0 2) ])
          (mkRequest 7 "GetBulk" [mkBinding [1; 3; 6; 1] null] 0 3)
    = Returns (Some (InvalidResponse e)).
Proof.
  apply (proj1 (check_content_rules
                  (mkResponse 7 0 0
                     [ mkBinding [1; 3; 6; 1; 1] (rawLit 0 2);
                       mkBinding [1; 3; 6; 1; 2] endOfMibView;
                       mkBinding [2; 5] (rawLit 0 2) ])
                  (mkRequest 7 "GetBulk" [mkBinding [1; 3; 6; 1] null] 0 3))
           eq_refl eq_refl)
    with (l1 := [mkBinding [1; 3; 6; 1; 1] (rawLit 0 2)])
         (l2 := [mkBinding [2; 5] (rawLit 0 2)]).
  - unfold countOK. simpl. repeat split; [lia | lia | right; reflexivity].
  - reflexivity.
  - constructor; [|constructor].
    apply checkBinding_None. reflexivity.
  - left. unfold placeholder. simpl. lia.
Defined.


(** * Further properties *)

(** ** The binding order is a strict total order on identifiers *)

Section LessOrder.

Lemma lexLess_trans (a b c : list Z) :
  lexLess a b = true -> lexLess b c = true -> lexLess a c = true.
Proof.
  revert b c. induction a as [|x a IH]; intros [|y b] [|z c]; simpl;
    try congruence.
  destruct (x <? y) eqn:Hxy, (y <? z) eqn:Hyz;
    try apply Z.ltb_lt in Hxy; try apply Z.ltb_lt in Hyz;
    try apply Z.ltb_ge in Hxy; try apply Z.ltb_ge in Hyz.
  - intros _ _. replace (x <? z) with true by (symmetry; apply Z.ltb_lt; lia).
    reflexivity.
  - intros _. destruct (y =? z) eqn:Eyz; [|discriminate].
    apply Z.eqb_eq in Eyz. subst z. intros _.
    replace (x <? y) with true by (symmetry; apply Z.ltb_lt; lia). reflexivity.
  - destruct (x =? y) eqn:Exy; [|discriminate].
    apply Z.eqb_eq in Exy. subst y. intros _ _.
    replace (x <? z) with true by (symmetry; apply Z.ltb_lt; lia). reflexivity.
  - destruct (x =? y) eqn:Exy; [|discriminate].
    destruct (y =? z) eqn:Eyz; [|discriminate].
    apply Z.eqb_eq in Exy, Eyz. subst y z.
    rewrite Z.ltb_irrefl, Z.eqb_refl. apply IH.
Qed.

Lemma lexLess_total (a b : list Z) :
  lexLess a b = false -> lexLess b a = false -> a = b.
Proof.
  revert b. induction a as [|x a IH]; intros [|y b]; simpl; try congruence.
  destruct (x <? y) eqn:Hxy; [discriminate|].
  destruct (x =? y) eqn:Exy.
  - apply Z.eqb_eq in Exy. subst y. rewrite Z.ltb_irrefl, Z.eqb_refl.
    intros H1 H2. f_equal. apply IH; assumption.
  - apply Z.ltb_ge in Hxy. apply Z.eqb_neq in Exy. intros _.
    replace (y <? x) with true by (symmetry; apply Z.ltb_lt; lia).
    discriminate.
Qed.

Lemma lexLess_diverge (p : list Z) (x y : Z) (r1 r2 : list Z) :
  x < y -> lexLess (p ++ x :: r1) (p ++ y :: r2) = true.
Proof.
  intros Hxy. induction p as [|z p IH]; simpl.
  - replace (x <? y) with true by (symmetry; apply Z.ltb_lt; lia). reflexivity.
  - rewrite Z.ltb_irrefl, Z.eqb_refl. exact IH.
Qed.

Lemma idx_lookup (l : list Z) (i : nat) (x : Z) :
  l !! i = Some x -> idx l i = x.
Proof. unfold idx. intros ->. reflexivity. Qed.

Lemma less_loop_indexed_ok (a b : list Z) (dflt : bool) (k i : nat) :
  (i + k <= length a)%nat -> (i + k <= length b)%nat ->
  less_loop_indexed a b i k dflt = Some (less_loop a b i k dflt).
Proof.
  revert i. induction k as [|k IH]; intros i Ha Hb; simpl; [reflexivity|].
  destruct (lookup_lt_is_Some_2 a i) as [x Hx]; [lia|].
  destruct (lookup_lt_is_Some_2 b i) as [y Hy]; [lia|].
  rewrite Hx, Hy, (idx_lookup _ _ _ Hx), (idx_lookup _ _ _ Hy). simpl.
  destruct (x <? y); [reflexivity|].
  destruct (x =? y); [|reflexivity].
  apply IH; lia.
Qed.

End LessOrder.

(** X1: [less] is transitive. *)
Theorem less_transitive (a b c : Binding) :
  less a b = true -> less b c = true -> less a c = true.
Proof. rewrite !less_lexLess. apply lexLess_trans. Qed.

Lemma less_transitive_witness :
  less (mkBinding [1; 3; 6] null) (mkBinding [1; 3; 7; 2] null) = true.
Proof.
  apply (less_transitive (mkBinding [1; 3; 6] null)
           (mkBinding [1; 3; 6; 1; 4] null) (mkBinding [1; 3; 7; 2] null));
    reflexivity.
Defined.

(** X2: two bindings are unordered by [less] exactly when their identifiers
    are equal; bindings with different identifiers are ordered one way or
    the other. *)
Theorem less_total (a b : Binding) :
  (less a b = false /\ less b a = false <-> Name a = Name b) /\
  (Name a <> Name b -> less a b = true \/ less b a = true).
Proof.
  rewrite !less_lexLess. split.
  - split.
    + intros [H1 H2]. apply lexLess_total; assumption.
    + intros ->. split; apply lexLess_irrefl.
  - intros Hne. destruct (lexLess (Name a) (Name b)) eqn:H1; [left; reflexivity|].
    destruct (lexLess (Name b) (Name a)) eqn:H2; [right; reflexivity|].
    exfalso. apply Hne, lexLess_total; assumption.
Qed.

Lemma less_total_witness :
  less (mkBinding [1; 3; 6; 2] null) (mkBinding [1; 3; 7] null) = true \/
  less (mkBinding [1; 3; 7] null) (mkBinding [1; 3; 6; 2] null) = true.
Proof.
  apply (proj2 (less_total (mkBinding [1; 3; 6; 2] null) (mkBinding [1; 3; 7] null))).
  simpl. discriminate.
Defined.

(** X3: the first component in which two identifiers differ decides the
    order, whatever follows it and whatever the lengths. *)
Theorem less_first_difference (a b : Binding) (p : list Z) (x y : Z)
    (r1 r2 : list Z) :
  Name a = p ++ x :: r1 -> Name b = p ++ y :: r2 -> x < y ->
  less a b = true /\ less b a = false.
Proof.
  intros Ha Hb Hxy. rewrite !less_lexLess, Ha, Hb.
  pose proof (lexLess_diverge p x y r1 r2 Hxy) as H.
  split; [exact H | apply lexLess_asym, H].
Qed.

Lemma less_first_difference_witness :
  less (mkBinding [1; 3; 6; 9; 9; 9] null) (mkBinding [1; 3; 7] null) = true /\
  less (mkBinding [1; 3; 7] null) (mkBinding [1; 3; 6; 9; 9; 9] null) = false.
Proof.
  apply (less_first_difference (mkBinding [1; 3; 6; 9; 9; 9] null)
           (mkBinding [1; 3; 7] null) [1; 3] 6 7 [9; 9; 9] []);
    [reflexivity | reflexivity | lia].
Defined.

(** X4: [less] never indexes a slice out of range: with every access
    bounds-checked it returns, and returns what [less] returns. *)
Theorem less_in_bounds (a b : Binding) :
  less_indexed a b = Some (less a b).
Proof.
  unfold less_indexed, less.
  destruct (length (Name a) <? length (Name b))%nat eqn:Hlt.
  - apply Nat.ltb_lt in Hlt. apply less_loop_indexed_ok; lia.
  - apply Nat.ltb_ge in Hlt.
    destruct (length (Name a) =? length (Name b))%nat eqn:Heq.
    + apply Nat.eqb_eq in Heq. apply less_loop_indexed_ok; lia.
    + apply less_loop_indexed_ok; lia.
Qed.

(** ** Subtrees *)

Section HasPrefix.

Lemma hasPrefix_forall (instance prefix : list Z) :
  hasPrefix instance prefix = true <->
  (length prefix <= length instance)%nat /\
  forall i, (i < length prefix)%nat -> instance !! i = prefix !! i.
Proof.
  unfold hasPrefix.
  destruct (length instance <? length prefix)%nat eqn:Hlen.
  - apply Nat.ltb_lt in Hlen. split; [discriminate | lia].
  - apply Nat.ltb_ge in Hlen. rewrite forallb_forall. split.
    + intros H. split; [exact Hlen|]. intros i Hi.
      specialize (H i). rewrite in_seq in H. specialize (H ltac:(lia)).
      apply Z.eqb_eq in H.
      destruct (lookup_lt_is_Some_2 instance i) as [x Hx]; [lia|].
      destruct (lookup_lt_is_Some_2 prefix i) as [y Hy]; [lia|].
      rewrite (idx_lookup _ _ _ Hx), (idx_lookup _ _ _ Hy) in H.
      rewrite Hx, Hy, H. reflexivity.
    + intros [_ H] i Hi. apply in_seq in Hi. apply Z.eqb_eq.
      unfold idx. rewrite H by lia. reflexivity.
Qed.

Lemma hasPrefix_app (instance prefix : list Z) :
  hasPrefix instance prefix = true <-> exists r, instance = prefix ++ r.
Proof.
  rewrite hasPrefix_forall. split.
  - intros [Hlen H]. exists (drop (length prefix) instance).
    rewrite <- (take_drop (length prefix) instance) at 1. f_equal.
    apply list_eq. intros i.
    destruct (decide (i < length prefix)%nat) as [Hi|Hi].
    + rewrite lookup_take_lt by lia. apply H, Hi.
    + rewrite lookup_take_ge by lia. symmetry. apply lookup_ge_None. lia.
  - intros [r ->]. rewrite length_app. split; [lia|].
    intros i Hi. apply lookup_app_l, Hi.
Qed.

Lemma hasPrefix_loop_indexed_ok (instance prefix : list Z) (ixs : list nat) :
  (forall i, In i ixs -> (i < length instance)%nat /\ (i < length prefix)%nat) ->
  hasPrefix_loop_indexed instance prefix ixs =
    Some (forallb (fun i => idx instance i =? idx prefix i) ixs).
Proof.
  induction ixs as [|i ixs IH]; intros Hb; simpl; [reflexivity|].
  destruct (Hb i (or_introl eq_refl)) as [Hi Hp].
  destruct (lookup_lt_is_Some_2 instance i Hi) as [x Hx].
  destruct (lookup_lt_is_Some_2 prefix i Hp) as [y Hy].
  rewrite Hx, Hy, (idx_lookup _ _ _ Hx), (idx_lookup _ _ _ Hy). simpl.
  destruct (x =? y); simpl; [|reflexivity].
  apply IH. intros j Hj. apply Hb. right. exact Hj.
Qed.

End HasPrefix.

(** X5: [hasPrefix instance prefix] holds exactly when [instance] is
    [prefix] followed by some, possibly no, further components; so every
    identifier has itself and the empty identifier as a prefix, and a
    prefix of a prefix is a prefix. *)
Theorem hasPrefix_extension (instance prefix : list Z) :
  (hasPrefix instance prefix = true <-> exists r, instance = prefix ++ r) /\
  hasPrefix instance instance = true /\
  hasPrefix instance [] = true /\
  (forall root, hasPrefix instance prefix = true ->
     hasPrefix prefix root = true -> hasPrefix instance root = true).
Proof.
  split; [apply hasPrefix_app|]. split; [|split].
  - apply hasPrefix_app. exists []. symmetry. apply app_nil_r.
  - apply hasPrefix_app. exists instance. reflexivity.
  - intros root H1 H2. apply hasPrefix_app in H1 as [r1 ->].
    apply hasPrefix_app in H2 as [r2 ->].
    apply hasPrefix_app. exists (r2 ++ r1). symmetry. apply app_assoc.
Qed.

Lemma hasPrefix_extension_witness :
  hasPrefix [1; 3; 6; 1; 2] [1; 3] = true.
Proof.
  apply (proj2 (proj2 (proj2 (hasPrefix_extension [1; 3; 6; 1; 2] [1; 3; 6])))
           [1; 3]); reflexivity.
Defined.

(** X6: [hasPrefix] never indexes a slice out of range: with every access
    bounds-checked it returns, and returns what [hasPrefix] returns, also
    when the instance is shorter than the prefix. *)
Theorem hasPrefix_in_bounds (instance prefix : list Z) :
  hasPrefix_indexed instance prefix = Some (hasPrefix instance prefix).
Proof.
  unfold hasPrefix_indexed, hasPrefix.
  destruct (length instance <? length prefix)%nat eqn:Hlen; [reflexivity|].
  apply Nat.ltb_ge in Hlen. apply hasPrefix_loop_indexed_ok.
  intros i Hi. apply in_seq in Hi. lia.
Qed.

(** X7: a binding that lies in the subtree of another binding's identifier,
    and is not that identifier itself, comes after it in the order of
    [less]. *)
Theorem subtree_after_root (a b : Binding) :
  hasPrefix (Name b) (Name a) = true -> Name a <> Name b ->
  less a b = true /\ less b a = false.
Proof.
  intros Hp Hne. apply hasPrefix_app in Hp as [r Hr].
  destruct r as [|c r]; [rewrite app_nil_r in Hr; congruence|].
  rewrite !less_lexLess, Hr.
  pose proof (lexLess_app (Name a) c r) as H.
  split; [exact H | apply lexLess_asym, H].
Qed.

Lemma subtree_after_root_witness :
  less (mkBinding [1; 3; 6; 1] null) (mkBinding [1; 3; 6; 1; 2; 1] null) = true /\
  less (mkBinding [1; 3; 6; 1; 2; 1] null) (mkBinding [1; 3; 6; 1] null) = false.
Proof.
  apply (subtree_after_root (mkBinding [1; 3; 6; 1] null)
           (mkBinding [1; 3; 6; 1; 2; 1] null));
    [reflexivity | simpl; discriminate].
Defined.

(** ** Printable strings, continued *)

Section ToStringMore.

Lemma toByte_byteval (c : Byte.byte) : toByte (byteval c) = c.
Proof.
  unfold toByte, byteval.
  pose proof (Byte.to_N_bounded c) as Hb.
  rewrite Z.mod_small by lia. rewrite N2Z.id, Byte.of_to_N. reflexivity.
Qed.

Lemma copyPrintableInt_bytes (cs : list Byte.byte) :
  copyPrintableInt (map byteval cs) = copyPrintable cs.
Proof.
  induction cs as [|c cs IH]; simpl; [reflexivity|].
  rewrite IH, toByte_byteval. reflexivity.
Qed.

Lemma copyPrintableInt_Some (cs : list Z) (buf : list Byte.byte) :
  copyPrintableInt cs = Some buf <->
  Forall (fun c => 32 <= c <= 126) cs /\ buf = map toByte cs.
Proof.
  revert buf. induction cs as [|c cs IH]; intros buf; simpl.
  - split; [intros [= <-]; auto | intros [_ ->]; reflexivity].
  - destruct (c <? 32) eqn:Hlo; simpl.
    { apply Z.ltb_lt in Hlo. split; [discriminate|].
      intros [H _]. inversion H; subst. lia. }
    destruct (126 <? c) eqn:Hhi; simpl.
    { apply Z.ltb_lt in Hhi. split; [discriminate|].
      intros [H _]. inversion H; subst. lia. }
    apply Z.ltb_ge in Hlo, Hhi.
    destruct (copyPrintableInt cs) as [buf'|] eqn:E; simpl.
    + destruct (proj1 (IH buf') eq_refl) as [Hall ->]. split.
      * intros [= <-]. split; [constructor; [lia | assumption] | reflexivity].
      * intros [_ ->]. reflexivity.
    + split; [discriminate|]. intros [H _].
      inversion H as [|? ? _ Hall]; subst.
      specialize (proj2 (IH _) (conj Hall eq_refl)). discriminate.
Qed.

Lemma length_string_of_list_byte (l : list Byte.byte) :
  String.length (string_of_list_byte l) = length l.
Proof.
  rewrite <- length_list_byte_of_string, list_byte_of_string_of_list_byte.
  reflexivity.
Qed.

End ToStringMore.

(** X8: on a slice of ints that are byte values, [toStringInt] gives what
    [toString] gives on the bytes. *)
Theorem toStringInt_bytes (x : list Byte.byte) :
  toStringInt (map byteval x) = toString x.
Proof.
  destruct x as [|x0 rest]; simpl; [reflexivity|].
  rewrite length_map, copyPrintableInt_bytes. reflexivity.
Qed.

(** X9: [toStringInt x] succeeds exactly when [x] is not empty, its first
    element equals the number of remaining elements and every remaining
    element is in [0x20, 0x7e]; the text is then made of the remaining
    elements as bytes, and in every other case the result is
    [("", false)]. *)
Theorem toStringInt_printable (x : list Z) :
  (forall s, toStringInt x = (s, true) <->
     exists x0 rest, x = x0 :: rest /\ x0 = Z.of_nat (length rest) /\
       Forall (fun c => 32 <= c <= 126) rest /\
       s = string_of_list_byte (map toByte rest)) /\
  ((forall s, toStringInt x <> (s, true)) -> toStringInt x = ("", false)).
Proof.
  split.
  - intros s. split.
    + destruct x as [|x0 rest]; simpl; [discriminate|].
      destruct (x0 =? Z.of_nat (length rest)) eqn:Hlen; simpl; [|discriminate].
      apply Z.eqb_eq in Hlen.
      destruct (copyPrintableInt rest) as [buf|] eqn:E; [|discriminate].
      apply copyPrintableInt_Some in E as [Hall ->]. intros [= <-].
      exists x0, rest. auto.
    + intros (x0 & rest & -> & Hlen & Hall & ->). simpl.
      rewrite (proj2 (Z.eqb_eq _ _) Hlen). simpl.
      rewrite (proj2 (copyPrintableInt_Some rest _) (conj Hall eq_refl)).
      reflexivity.
  - intros Hn. destruct x as [|x0 rest]; simpl in *; [reflexivity|].
    destruct (negb (x0 =? Z.of_nat (length rest))); [reflexivity|].
    destruct (copyPrintableInt rest) as [buf|]; [|reflexivity].
    exfalso. apply (Hn (string_of_list_byte buf)). reflexivity.
Qed.

Lemma toStringInt_printable_witness :
  toStringInt [2; 104; 105] = ("hi", true) /\
  toStringInt [2; 104; 361] = ("", false).
Proof.
  split.
  - apply (proj1 (toStringInt_printable [2; 104; 105])).
    exists 2, [104; 105]. repeat split; try lia; try reflexivity.
    repeat constructor; lia.
  - apply (proj2 (toStringInt_printable [2; 104; 361])).
    intros s. vm_compute. discriminate.
Defined.

(** X10: an accepted input is recovered from its text: when [toString x]
    succeeds with [s], [x] is [s] with its length byte in front, and [s]
    has one byte less than [x], at most 255. *)
Theorem toString_inverse (x : list Byte.byte) (s : string) :
  toString x = (s, true) ->
  lengthPrefixed s = Some x /\
  S (String.length s) = length x /\ (String.length s <= 255)%nat.
Proof.
  intros H. apply toString_true in H as (x0 & rest & -> & Hlen & _ & ->).
  rewrite length_string_of_list_byte.
  assert (Hn : Byte.to_nat x0 = length rest).
  { unfold byteval in Hlen. rewrite Byte.to_nat_via_N. lia. }
  split; [|split].
  - unfold lengthPrefixed. rewrite length_string_of_list_byte.
    rewrite (proj2 (Byte.to_of_nat_iff (length rest) x0) Hn). simpl.
    rewrite list_byte_of_string_of_list_byte. reflexivity.
  - reflexivity.
  - rewrite <- Hn. apply Byte.to_nat_bounded.
Qed.

Lemma toString_inverse_witness :
  lengthPrefixed "hi" = Some [x02; x68; x69] /\
  S (String.length "hi") = length [x02; x68; x69] /\
  (String.length "hi" <= 255)%nat.
Proof. apply (toString_inverse [x02; x68; x69] "hi"). reflexivity. Defined.



(** ** Error-status texts, continued *)

Section ErrorStatusMore.

Lemma errorStatus_String_inside (e : Z) :
  0 <= e <= 18 -> rfc3416 !! Z.to_nat e = Some (errorStatus_String e).
Proof.
  intros He. unfold errorStatus_String. rewrite (errorText_inside e He).
  destruct (rfc3416 !! Z.to_nat e) as [s|] eqn:E.
  - simpl. pose proof (rfc3416_nonempty s (list_elem_of_lookup_2 _ _ _ E)) as Hs.
    destruct (String.eqb_spec s ""); [contradiction | reflexivity].
  - apply lookup_ge_None in E. simpl in E. lia.
Qed.

Lemma errorStatus_String_outside (e : Z) :
  ~ 0 <= e <= 18 -> errorStatus_String e = "code " +:+ fmt_d e.
Proof.
  intros He. unfold errorStatus_String. rewrite (errorText_outside e He).
  reflexivity.
Qed.

Lemma rfc3416_NoDup : NoDup rfc3416.
Proof. apply (bool_decide_unpack _). vm_compute. exact I. Qed.

Lemma rfc3416_not_code (s t : string) : s ∈ rfc3416 -> s <> "code " +:+ t.
Proof.
  unfold rfc3416. rewrite !elem_of_cons, elem_of_nil.
  intros H. repeat (destruct H as [-> | H]; [simpl; discriminate|]).
  contradiction.
Qed.

Lemma fmt_d_inj (e1 e2 : Z) : fmt_d e1 = fmt_d e2 -> e1 = e2.
Proof.
  unfold fmt_d. intros H. apply DecimalZ.to_int_inj.
  assert (Hnn : forall e, Z.to_int e <> Decimal.Pos Decimal.Nil /\
                          Z.to_int e <> Decimal.Neg Decimal.Nil).
  { intros [|p|p]; simpl; split; try discriminate;
      intros [= Hp]; exact (DecimalPos.Unsigned.to_uint_nonnil p Hp). }
  pose proof (NilZero.isi (Z.to_int e1) (proj1 (Hnn e1)) (proj2 (Hnn e1))) as H1.
  pose proof (NilZero.isi (Z.to_int e2) (proj1 (Hnn e2)) (proj2 (Hnn e2))) as H2.
  rewrite H in H1. congruence.
Qed.

End ErrorStatusMore.

(** X12: the text of an error status determines its code: two different
    codes never render alike, and a text of the form "code ..." is never
    the text of a code from 0 to 18. *)
Theorem errorStatus_String_injective (e1 e2 : Z) :
  (errorStatus_String e1 = errorStatus_String e2 -> e1 = e2) /\
  (forall t, errorStatus_String e1 = "code " +:+ t -> ~ 0 <= e1 <= 18).
Proof.
  assert (Hcode : forall e t, errorStatus_String e = "code " +:+ t ->
                              ~ 0 <= e <= 18).
  { intros e t Ht He. apply errorStatus_String_inside in He.
    apply list_elem_of_lookup_2 in He.
    exact (rfc3416_not_code _ t He Ht). }
  split; [|apply Hcode].
  intros H.
  destruct (decide (0 <= e1 <= 18)) as [H1|H1];
    destruct (decide (0 <= e2 <= 18)) as [H2|H2].
  - pose proof (errorStatus_String_inside e1 H1) as L1.
    pose proof (errorStatus_String_inside e2 H2) as L2.
    rewrite H in L1.
    pose proof (NoDup_lookup _ _ _ _ rfc3416_NoDup L1 L2). lia.
  - exfalso. rewrite (errorStatus_String_outside e2 H2) in H.
    exact (Hcode e1 _ H H1).
  - exfalso. rewrite (errorStatus_String_outside e1 H1) in H.
    symmetry in H. exact (Hcode e2 _ H H2).
  - rewrite (errorStatus_String_outside e1 H1),
      (errorStatus_String_outside e2 H2) in H.
    apply fmt_d_inj. cbn [String.append] in H. injection H as H. exact H.
Qed.

Lemma errorStatus_String_injective_witness : ~ 0 <= 19 <= 18.
Proof.
  apply (proj2 (errorStatus_String_injective 19 19) "19"). reflexivity.
Defined.

(** ** Class normalization, continued *)

(** X13: [convertClass] panics exactly on a value of the application class
    with tag 0, 1, 2, 3, 4 or 6 whose encoded form is empty; a value it
    returns is never again one that it would rewrite. *)
Theorem convertClass_panics_iff (v : RawValue) :
  (convertClass v = None <->
   FullBytes v = [] /\ (toOctetString v \/ toInteger v)) /\
  (forall v', convertClass v = Some v' -> ~ toOctetString v' /\ ~ toInteger v').
Proof.
  split.
  - destruct (rewritten_dec v) as [Ho | [Hi | [Ho Hi]]].
    + rewrite (convertClass_octets v Ho).
      destruct (FullBytes v) as [|b fb]; [rewrite store_nil | rewrite store_head];
        simpl; split; try discriminate; try tauto. intros [[=] _].
    + rewrite (convertClass_integer v Hi).
      destruct (FullBytes v) as [|b fb]; [rewrite store_nil | rewrite store_head];
        simpl; split; try discriminate; try tauto. intros [[=] _].
    + rewrite (convertClass_other v Ho Hi). split; [discriminate | tauto].
  - intros v' H. destruct (rewritten_dec v) as [Ho | [Hi | [Ho Hi]]].
    + rewrite (convertClass_octets v Ho) in H.
      destruct (store (FullBytes v) 0 x04); simpl in H; [|discriminate].
      injection H as <-. unfold toOctetString, toInteger. simpl. lia.
    + rewrite (convertClass_integer v Hi) in H.
      destruct (store (FullBytes v) 0 x02); simpl in H; [|discriminate].
      injection H as <-. unfold toOctetString, toInteger. simpl. lia.
    + rewrite (convertClass_other v Ho Hi) in H. injection H as <-. tauto.
Qed.

Lemma convertClass_panics_iff_witness :
  convertClass (mkRawValue 1 6 false [] []) = None.
Proof.
  apply (proj2 (proj1 (convertClass_panics_iff (mkRawValue 1 6 false [] [])))).
  split; [reflexivity|]. right. unfold toInteger. simpl. lia.
Defined.

(** ** The response validator, continued *)

Section CheckMore.

Lemma checkBinding_normalized (b b' : Binding) :
  Name b' = Name b -> convertClass (Value b) = Some (Value b') ->
  checkBinding b' = checkBinding b.
Proof.
  intros Hn Hv. unfold checkBinding. rewrite Hn.
  assert (He : forall c t, (c = 2 \/ (c = 0 /\ t = 5)) ->
             eqv (Value b') (rawLit c t) = eqv (Value b) (rawLit c t)).
  { intros c t Hct. unfold eqv. simpl.
    destruct (rewritten_dec (Value b)) as [Ho | [Hi | [Ho Hi]]].
    - rewrite (convertClass_octets _ Ho) in Hv.
      destruct (store _ _ _); simpl in Hv; [|discriminate].
      injection Hv as <-. simpl. destruct Ho as [-> _].
      destruct Hct as [-> | [-> ->]]; reflexivity.
    - rewrite (convertClass_integer _ Hi) in Hv.
      destruct (store _ _ _); simpl in Hv; [|discriminate].
      injection Hv as <-. simpl. destruct Hi as [-> _].
      destruct Hct as [-> | [-> ->]]; reflexivity.
    - rewrite (convertClass_other _ Ho Hi) in Hv. injection Hv as <-.
      reflexivity. }
  unfold noSuchObject, noSuchInstance, endOfMibView, null.
  rewrite !He by lia. reflexivity.
Qed.

Lemma checkBindings_normalized (bs bs' : list Binding) :
  normalizedFrom bs bs' -> checkBindings bs' = checkBindings bs.
Proof.
  induction 1 as [|b b' bs bs' [Hn Hv] _ IH]; simpl; [reflexivity|].
  rewrite (checkBinding_normalized b b' Hn Hv), IH. reflexivity.
Qed.

Lemma check_body_panics (resp : Response) (req : Request) :
  check_body resp req = Panics <->
  RespID resp = ReqID req /\ ErrorStatus resp <> 0 /\
  0 <= ErrorIndex resp < Z.of_nat (length (RespBindings resp)) /\
  Z.of_nat (length (ReqBindings req)) <= ErrorIndex resp.
Proof.
  unfold check_body.
  destruct (RespID resp =? ReqID req) eqn:Hid; simpl.
  2:{ apply Z.eqb_neq in Hid. split; [discriminate | tauto]. }
  apply Z.eqb_eq in Hid.
  destruct (ErrorStatus resp =? 0) eqn:Hst; simpl.
  { apply Z.eqb_eq in Hst. split; [|tauto].
    repeat match goal with
           | |- context [if ?c then _ else _] => destruct c
           end; discriminate. }
  apply Z.eqb_neq in Hst.
  destruct (0 <=? ErrorIndex resp) eqn:H0; simpl.
  2:{ apply Z.leb_gt in H0. split; [discriminate | lia]. }
  apply Z.leb_le in H0.
  destruct (ErrorIndex resp <? Z.of_nat (length (RespBindings resp))) eqn:H1.
  2:{ apply Z.ltb_ge in H1. split; [discriminate | lia]. }
  apply Z.ltb_lt in H1.
  destruct (ReqBindings req !! Z.to_nat (ErrorIndex resp)) as [b|] eqn:Hb.
  - apply lookup_lt_Some in Hb. split; [discriminate | lia].
  - apply lookup_ge_None in Hb. split; [intros _|reflexivity].
    repeat split; try assumption; lia.
Qed.

End CheckMore.

(** X14: [check] panics exactly when the ids agree, the error status is not
    0 and the error index is within the response bindings but not within
    the request bindings.  So it returns whenever the response has no more
    bindings than the request, and on an id mismatch it returns the id
    mismatch error whatever the other fields are. *)
Theorem check_panics_iff (resp : Response) (req : Request) :
  (check resp req = Panics <->
   RespID resp = ReqID req /\ ErrorStatus resp <> 0 /\
   0 <= ErrorIndex resp < Z.of_nat (length (RespBindings resp)) /\
   Z.of_nat (length (ReqBindings req)) <= ErrorIndex resp) /\
  ((length (RespBindings resp) <= length (ReqBindings req))%nat ->
   exists r, check resp req = Returns r) /\
  (RespID resp <> ReqID req ->
   check resp req = Returns (Some (InvalidResponse IdMismatch))).
Proof.
  assert (Hp : check resp req = Panics <-> check_body resp req = Panics).
  { unfold check. destruct (check_body resp req) as [[e|]|];
      split; try discriminate; reflexivity. }
  split; [rewrite Hp; apply check_body_panics|]. split.
  - intros Hlen.
    assert (Hnp : check resp req <> Panics).
    { intros E. apply Hp, check_body_panics in E. lia. }
    destruct (check resp req) as [r|]; [eauto | congruence].
  - intros Hid. unfold check, check_body.
    apply Z.eqb_neq in Hid. rewrite Hid. reflexivity.
Qed.

Lemma check_panics_iff_witness :
  (exists r, check (mkResponse 7 5 0 [mkBinding [1; 3; 6] null])
               (mkRequest 7 "Get" [mkBinding [1; 3; 6] null] 0 0) = Returns r) /\
  check (mkResponse 8 5 3 []) (mkRequest 7 "Get" [] 0 0)
  = Returns (Some (InvalidResponse IdMismatch)).
Proof.
  split.
  - apply (proj1 (proj2 (check_panics_iff
                           (mkResponse 7 5 0 [mkBinding [1; 3; 6] null])
                           (mkRequest 7 "Get" [mkBinding [1; 3; 6] null] 0 0)))).
    simpl. lia.
  - apply (proj2 (proj2 (check_panics_iff (mkResponse 8 5 3 [])
                                          (mkRequest 7 "Get" [] 0 0)))).
    simpl. lia.
Defined.

(** X15: running the values of the response bindings through
    [convertClass] does not change the verdict of [check]. *)
Theorem check_normalized (resp : Response) (req : Request) (bs' : list Binding) :
  normalizedFrom (RespBindings resp) bs' ->
  check (withBindings resp bs') req = check resp req.
Proof.
  intros Hn. pose proof (Forall2_length _ _ _ Hn) as Hlen.
  unfold check, check_body, withBindings. simpl.
  rewrite <- Hlen, (checkBindings_normalized _ _ Hn). reflexivity.
Qed.

Lemma check_normalized_witness :
  check (mkResponse 7 0 0
           [mkBinding [1; 3; 6; 1] (mkRawValue 0 2 false [x2a] [x02; x01; x2a])])
        (mkRequest 7 "Get" [mkBinding [1; 3; 6; 1] null] 0 0)
  = check (mkResponse 7 0 0
           [mkBinding [1; 3; 6; 1] (mkRawValue 1 3 false [x2a] [x43; x01; x2a])])
        (mkRequest 7 "Get" [mkBinding [1; 3; 6; 1] null] 0 0).
Proof.
  apply (check_normalized
           (mkResponse 7 0 0
              [mkBinding [1; 3; 6; 1] (mkRawValue 1 3 false [x2a] [x43; x01; x2a])])
           (mkRequest 7 "Get" [mkBinding [1; 3; 6; 1] null] 0 0)
           [mkBinding [1; 3; 6; 1] (mkRawValue 0 2 false [x2a] [x02; x01; x2a])]).
  repeat constructor.
Defined.

Lemma check_server_error_witness :
  check (mkResponse 7 2 0 [mkBinding [1; 3; 6; 1] null])
        (mkRequest 7 "Get" [mkBinding [1; 3; 6; 1] null] 0 0)
  = Returns (Some (InvalidResponse
                     (BindingContext (mkBinding [1; 3; 6; 1] null)
                        (ServerError "no such name")))) /\
  check (mkResponse 7 2 5 [mkBinding [1; 3; 6; 1] null])
        (mkRequest 7 "Get" [mkBinding [1; 3; 6; 1] null] 0 0)
  = Returns (Some (InvalidResponse (ServerError "no such name"))).
Proof.
  split.
  - apply (proj1 (proj2 (check_server_error
                           (mkResponse 7 2 0 [mkBinding [1; 3; 6; 1] null])
                           (mkRequest 7 "Get" [mkBinding [1; 3; 6; 1] null] 0 0)
                           eq_refl ltac:(simpl; lia))));
      [simpl; lia | reflexivity].
  - apply (proj1 (check_server_error
                    (mkResponse 7 2 5 [mkBinding [1; 3; 6; 1] null])
                    (mkRequest 7 "Get" [mkBinding [1; 3; 6; 1] null] 0 0)
                    eq_refl ltac:(simpl; lia))).
    simpl. lia.
Defined.

(** X17: with error status 0, [check] looks at the request only through its
    id, its number of bindings and whether its type is GetBulk: the names
    and values of the request bindings, and the repetition counts, play no
    part. *)
Theorem check_request_shape (resp : Response) (req1 req2 : Request) :
  ErrorStatus resp = 0 ->
  ReqID req1 = ReqID req2 ->
  length (ReqBindings req1) = length (ReqBindings req2) ->
  (Type_ req1 = "GetBulk" <-> Type_ req2 = "GetBulk") ->
  check resp req1 = check resp req2.
Proof.
  intros Hst Hid Hlen Hty. unfold check, check_body.
  rewrite Hst, Hid, Hlen. simpl.
  replace (String.eqb (Type_ req1) "GetBulk")
    with (String.eqb (Type_ req2) "GetBulk"); [reflexivity|].
  destruct (String.eqb_spec (Type_ req1) "GetBulk") as [H1|H1],
           (String.eqb_spec (Type_ req2) "GetBulk") as [H2|H2];
    try reflexivity; tauto.
Qed.

Lemma check_request_shape_witness :
  check (mkResponse 7 0 0 [mkBinding [1; 3; 6; 1] (rawLit 0 2)])
        (mkRequest 7 "Get" [mkBinding [1; 3; 9; 9] null] 0 0)
  = check (mkResponse 7 0 0 [mkBinding [1; 3; 6; 1] (rawLit 0 2)])
        (mkRequest 7 "GetNext" [mkBinding [1; 3; 6; 1] noSuchObject] 4 5).
Proof.
  apply (check_request_shape
           (mkResponse 7 0 0 [mkBinding [1; 3; 6; 1] (rawLit 0 2)])
           (mkRequest 7 "Get" [mkBinding [1; 3; 9; 9] null] 0 0)
           (mkRequest 7 "GetNext" [mkBinding [1; 3; 6; 1] noSuchObject] 4 5));
    try reflexivity.
  simpl. split; discriminate.
Defined.

(** X18: a response that [check] accepts for a request of a type other than
    GetBulk has exactly as many bindings as the request; an accepted
    response has at least one binding and at least as many as the request;
    and a response accepted for a request is accepted for the same request
    sent as GetBulk. *)
Theorem check_accepted_counts (resp : Response) (req : Request) :
  check resp req = Returns None ->
  (Type_ req <> "GetBulk" ->
     length (RespBindings resp) = length (ReqBindings req)) /\
  (1 <= length (RespBindings resp))%nat /\
  (length (ReqBindings req) <= length (RespBindings resp))%nat /\
  check resp (withType req "GetBulk") = Returns None.
Proof.
  intros H. apply check_success in H as (Hid & Hst & (Hn & Hm & Hty) & Hall).
  split; [|split; [|split]].
  - intros Hne. destruct Hty as [Hle | Hty]; [lia | contradiction].
  - lia.
  - exact Hm.
  - apply check_success. unfold countOK, withType. simpl.
    repeat split; try assumption. right. reflexivity.
Qed.

Lemma check_accepted_counts_witness :
  check (mkResponse 7 0 0 [mkBinding [1; 3; 6; 1] (rawLit 0 2)])
        (withType (mkRequest 7 "Get" [mkBinding [1; 3; 6; 1] null] 0 0) "GetBulk")
  = Returns None.
Proof.
  apply (check_accepted_counts
           (mkResponse 7 0 0 [mkBinding [1; 3; 6; 1] (rawLit 0 2)])
           (mkRequest 7 "Get" [mkBinding [1; 3; 6; 1] null] 0 0)).
  reflexivity.
Defined.

(** X19: a response that only echoes the bindings as RoundTrip sent them,
    every value null, is rejected: with the request's id, error status 0
    and at least one binding, [check] returns "unexpected null" for the
    first binding. *)
Theorem check_echo_rejected (resp : Response) (req : Request)
    (b : Binding) (bs : list Binding) :
  RespID resp = ReqID req -> ErrorStatus resp = 0 ->
  ReqBindings req = b :: bs ->
  RespBindings resp = clearValues (ReqBindings req) ->
  check resp req = Returns (Some (InvalidResponse (UnexpectedNullAt (Name b)))).
Proof.
  intros Hid Hst Hreq Hresp. unfold check.
  rewrite (check_body_count_ok resp req Hid Hst).
  - rewrite Hresp, Hreq. reflexivity.
  - unfold countOK. rewrite Hresp. unfold clearValues. rewrite length_map, Hreq.
    simpl. repeat split; [lia | lia | left; lia].
Qed.

Lemma check_echo_rejected_witness :
  check (mkResponse 7 0 0 [mkBinding [1; 3; 6; 1] null])
        (mkRequest 7 "Get" [mkBinding [1; 3; 6; 1] (rawLit 0 2)] 0 0)
  = Returns (Some (InvalidResponse (UnexpectedNullAt [1; 3; 6; 1]))).
Proof.
  apply (check_echo_rejected
           (mkResponse 7 0 0 [mkBinding [1; 3; 6; 1] null])
           (mkRequest 7 "Get" [mkBinding [1; 3; 6; 1] (rawLit 0 2)] 0 0)
           (mkBinding [1; 3; 6; 1] (rawLit 0 2)) []); reflexivity.
Defined.

(** ** The request envelope *)



(** ** Decoding a binding *)


